(** * emailAutomation: authorization chain and mailbox normalisation layer

    A shallow embedding of the request gates (src/middleware), the user
    model's serialisation hook (src/models/user.model.ts), the Gmail service
    (src/services/gmail.service.ts) and the email controller
    (controllers/email.controller.ts), followed by the properties proved
    about them.

    Conventions of the embedding.
    - JavaScript strings are [string]s; the string functions below are the
      ASCII fragment of their ECMAScript counterparts.
    - JavaScript numbers that the code only ever uses as integers are [Z];
      [NaN] is [None].
    - An object used as a dictionary ([req.params], [req.query], the plain
      object handed to a [toJSON] transform) is a [gmap string _].
    - [undefined] is [None]. *)

From Stdlib Require Import ZArith List String Ascii Bool Lia.
From stdpp Require Import base option list strings gmap pretty.

Set Warnings "-register-all,-clear-no-such-hyp".
Local Open Scope string_scope.
Local Open Scope list_scope.
Local Open Scope Z_scope.

(** ** The JavaScript runtime functions the code calls *)

Module Js.

(** Truthiness of a possibly-undefined string: [undefined] and [''] are
    falsy, every other string is truthy. *)
Definition truthy (v : option string) : bool :=
  match v with
  | Some (String _ _) => true
  | _ => false
  end.

(** [v || ''] *)
Definition or_empty (v : option string) : string :=
  if truthy v then default "" v else "".

(** Truthiness of a string: only [''] is falsy. *)
Definition nonempty (s : string) : bool :=
  match s with
  | String _ _ => true
  | EmptyString => false
  end.

(** [hay.startsWith(needle)] *)
Fixpoint startsWith (needle hay : string) : bool :=
  match needle, hay with
  | EmptyString, _ => true
  | String a needle', String b hay' => Ascii.eqb a b && startsWith needle' hay'
  | String _ _, EmptyString => false
  end.

(** [hay.includes(needle)] *)
Fixpoint includes (needle hay : string) : bool :=
  startsWith needle hay
  || match hay with
     | String _ rest => includes needle rest
     | EmptyString => false
     end.

Definition code (c : ascii) : N := N_of_ascii c.

Definition lower_char (c : ascii) : ascii :=
  if ((65 <=? code c) && (code c <=? 90))%N
  then ascii_of_N (code c + 32)
  else c.

(** [s.toLowerCase()] *)
Fixpoint toLowerCase (s : string) : string :=
  match s with
  | String c rest => String (lower_char c) (toLowerCase rest)
  | EmptyString => EmptyString
  end.

(** White space and line terminators: TAB, LF, VT, FF, CR, SP. *)
Definition is_ws (c : ascii) : bool :=
  (((9 <=? code c) && (code c <=? 13)) || (code c =? 32))%N.

Fixpoint trimStart (s : string) : string :=
  match s with
  | String c rest => if is_ws c then trimStart rest else s
  | EmptyString => EmptyString
  end.

Fixpoint trimEnd (s : string) : string :=
  match s with
  | String c rest =>
      let rest' := trimEnd rest in
      if is_ws c && negb (nonempty rest') then EmptyString
      else String c rest'
  | EmptyString => EmptyString
  end.

(** [s.trim()] *)
Definition trim (s : string) : string := trimEnd (trimStart s).

(** [s.split(sep)] for a one-character separator.  The result is never
    empty: [''.split(',')] is [['']]. *)
Fixpoint split (sep : ascii) (s : string) : list string :=
  match s with
  | EmptyString => [EmptyString]
  | String c rest =>
      let pieces := split sep rest in
      if Ascii.eqb c sep then EmptyString :: pieces
      else match pieces with
           | piece :: others => String c piece :: others
           | [] => [String c EmptyString]
           end
  end.

(** [parts.join(sep)] *)
Definition join (sep : string) (parts : list string) : string :=
  String.concat sep parts.

Definition digit (c : ascii) : option Z :=
  if ((48 <=? code c) && (code c <=? 57))%N
  then Some (Z.of_N (code c) - 48)
  else None.

(** The value of the longest prefix of decimal digits, [None] when the
    string does not start with a digit. *)
Fixpoint digits (s : string) (acc : option Z) : option Z :=
  match s with
  | String c rest =>
      match digit c with
      | Some d => digits rest (Some (10 * default 0 acc + d))
      | None => acc
      end
  | EmptyString => acc
  end.

(** [parseInt(s, 10)]: leading white space is skipped, one sign is
    accepted, the longest run of digits is read; [None] is [NaN]. *)
Definition parseInt (s : string) : option Z :=
  match trimStart s with
  | String "-" rest => Z.opp <$> digits rest None
  | String "+" rest => digits rest None
  | t => digits t None
  end.

(** [isNaN(n)] *)
Definition isNaN (n : option Z) : bool :=
  match n with
  | Some _ => false
  | None => true
  end.

(** [n <= k] and [n > k] for a number [n] that may be [NaN]; both are
    false on [NaN]. *)
Definition leb (n : option Z) (k : Z) : bool :=
  match n with
  | Some z => z <=? k
  | None => false
  end.

Definition gtb (n : option Z) (k : Z) : bool :=
  match n with
  | Some z => k <? z
  | None => false
  end.

(** [String(n)] for an integer or [NaN]. *)
Definition toString (n : option Z) : string :=
  match n with
  | Some z => pretty z
  | None => "NaN"
  end.

Fixpoint filler (fill cur : string) (k : nat) : string :=
  match k with
  | O => EmptyString
  | S k' =>
      match cur with
      | String c rest => String c (filler fill rest k')
      | EmptyString =>
          match fill with
          | String c rest => String c (filler fill rest k')
          | EmptyString => EmptyString
          end
      end
  end.

(** [s.padStart(n, fill)] *)
Definition padStart (n : nat) (fill : string) (s : string) : string :=
  if (n <=? String.length s)%nat then s
  else filler fill fill (n - String.length s) +:+ s.

End Js.

(** ** Values, requests and responses *)

Module Express.

(** The JavaScript values that occur in documents and response bodies.
    An object literal keeps its keys in the order they were written. *)
Inductive jsval :=
| VNull
| VBool (b : bool)
| VNum (n : Z)
| VStr (s : string)
| VOid (hex : string)             (* a Mongoose ObjectId *)
| VDate (t : option Z)            (* a Date: epoch milliseconds, [None] when invalid *)
| VArr (items : list jsval)
| VObj (fields : list (string * jsval)).

Inductive Level := Debug | Info | Warn | Error.

(** One call of [Logger.debug], [.info], [.warn] or [.error]; the
    structured second argument some calls pass is not recorded. *)
Record LogEntry := { level : Level; text : string }.

(** A computation that logs. *)
Definition Logged (A : Type) : Type := list LogEntry * A.

(** What a handler does with the request: it either calls [next()] or
    sends a response with [res.status(code).json(body)]. *)
Inductive Outcome :=
| Next
| Send (status : Z) (body : jsval).

End Express.

(** ** src/models/user.model.ts *)

Module UserModel.
Import Express.

Inductive Role := USER | ADMIN.

Definition Role_eqb (a b : Role) : bool :=
  match a, b with
  | USER, USER | ADMIN, ADMIN => true
  | _, _ => false
  end.

Definition Role_name (r : Role) : string :=
  match r with
  | USER => "USER"
  | ADMIN => "ADMIN"
  end.

Record ObjectId := { hex : string }.

Definition ObjectId_toString (o : ObjectId) : string := hex o.

Record IUser := {
  _id : ObjectId;
  email : string;
  name : string;
  timeZone : string;
  roles : list Role;
  googleAccessToken : option string;
  googleRefreshToken : option string;
  createdAt : Z;
  updatedAt : Z
}.

(** [v.toString()] for the kinds of value Mongoose stores under [_id]
    (an ObjectId, a string or a number).  [None] stands for a call that
    throws ([null]) and for the kinds of value left outside the model. *)
Definition valToString (v : jsval) : option string :=
  match v with
  | VOid h => Some h
  | VStr s => Some s
  | VNum n => Some (pretty n)
  | VBool b => Some (if b then "true" else "false")
  | _ => None
  end.

(** The [transform] of [userSchema.set('toJSON', ...)], applied to the
    plain object [ret] Mongoose built from the document.  Reading
    [ret._id.toString()] throws a TypeError when [_id] is missing; the
    model returns [None] there. *)
Definition toJSON_transform (ret : gmap string jsval) : option (gmap string jsval) :=
  v ← ret !! "_id";
  s ← valToString v;
  let ret := <["id" := VStr s]> ret in
  let ret := delete "_id" ret in
  let ret := delete "__v" ret in
  let ret := delete "googleAccessToken" ret in
  let ret := delete "googleRefreshToken" ret in
  Some ret.

(** The plain object Mongoose's [toObject] builds from a user document
    before it calls the transform: one key per path that is set, plus
    the version key. *)
Definition toObject (doc : IUser) (version : Z) : gmap string jsval :=
  let ret : gmap string jsval :=
    <["_id" := VOid (hex (_id doc))]>
    (<["email" := VStr (email doc)]>
    (<["name" := VStr (name doc)]>
    (<["timeZone" := VStr (timeZone doc)]>
    (<["roles" := VArr (map (fun r => VStr (Role_name r)) (roles doc))]>
    (<["createdAt" := VDate (Some (createdAt doc))]>
    (<["updatedAt" := VDate (Some (updatedAt doc))]>
    (<["__v" := VNum version]> ∅))))))) in
  let ret :=
    match googleAccessToken doc with
    | Some token => <["googleAccessToken" := VStr token]> ret
    | None => ret
    end in
  match googleRefreshToken doc with
  | Some token => <["googleRefreshToken" := VStr token]> ret
  | None => ret
  end.

End UserModel.

(** ** src/middleware *)

Module Middleware.
Import Express UserModel.

Record Request := {
  method : string;
  path : string;
  params : gmap string string;
  query : gmap string string;
  user : option IUser;
  isAuthenticated : bool          (* the result of [req.isAuthenticated()] *)
}.

Definition Handler : Type := Request -> Logged Outcome.

Definition log (l : Level) (s : string) : LogEntry := {| level := l; text := s |}.

Definition deny (status : Z) (message : string) : Outcome :=
  Send status (VObj [("success", VBool false); ("message", VStr message)]).

(** requireUser.ts *)
Definition requireUser : Handler := fun req =>
  match negb (isAuthenticated req), user req with
  | false, Some u =>
      ([log Debug ("Authenticated request: " +:+ email u +:+ " -> "
                   +:+ method req +:+ " " +:+ path req)],
       Next)
  | _, _ =>
      ([log Warn ("Unauthenticated access attempt to "
                  +:+ method req +:+ " " +:+ path req)],
       deny 401 "Authentication required")
  end.

(** [user.roles.some((userRole) => roles.includes(userRole))] *)
Definition hasRequiredRole (u : IUser) (required : list Role) : bool :=
  existsb (fun userRole => existsb (Role_eqb userRole) required) (roles u).

(** requireRole.ts *)
Definition requireRole (required : list Role) : Handler := fun req =>
  match user req with
  | None =>
      ([log Error "requireRole middleware called without user. Ensure requireUser runs first."],
       deny 401 "Authentication required")
  | Some u =>
      if negb (hasRequiredRole u required) then
        ([log Warn ("Authorization failed: " +:+ email u +:+ " attempted to access "
                    +:+ method req +:+ " " +:+ path req
                    +:+ " but lacks required role(s): "
                    +:+ Js.join ", " (map Role_name required))],
         deny 403 "Insufficient permissions")
      else
        ([log Debug ("Authorization granted: " +:+ email u
                     +:+ " has required role for "
                     +:+ method req +:+ " " +:+ path req)],
         Next)
  end.

(** requireOwnershipOrRole.ts *)
Definition requireOwnershipOrRole (paramName : string) (required : list Role) : Handler :=
  fun req =>
  match user req with
  | None =>
      ([log Error "requireOwnershipOrRole middleware called without user. Ensure requireUser runs first."],
       deny 401 "Authentication required")
  | Some u =>
      let resourceUserId := params req !! paramName in
      if negb (Js.truthy resourceUserId) then
        ([log Error ("requireOwnershipOrRole: Parameter '" +:+ paramName
                     +:+ "' not found in route")],
         deny 400 "Invalid request")
      else
        let isOwner := bool_decide (Some (ObjectId_toString (_id u)) = resourceUserId) in
        if isOwner || hasRequiredRole u required then
          ([log Debug ("Authorization granted: " +:+ email u +:+ " "
                       +:+ (if isOwner then "owns resource"
                            else "has role " +:+ Js.join ", " (map Role_name (roles u)))
                       +:+ " for " +:+ method req +:+ " " +:+ path req)],
           Next)
        else
          ([log Warn ("Authorization failed: " +:+ email u +:+ " attempted to access "
                      +:+ method req +:+ " " +:+ path req
                      +:+ " (resource: " +:+ Js.or_empty resourceUserId
                      +:+ ") without ownership or required role")],
           deny 403 "Access denied")
  end.

(** requireConnectedGoogle.ts *)
Definition requireConnectedGoogle : Handler := fun req =>
  match user req with
  | None =>
      ([log Error "requireConnectedGoogle middleware called without user. Ensure requireUser runs first."],
       deny 401 "Authentication required")
  | Some u =>
      if negb (Js.truthy (googleAccessToken u)) then
        ([log Warn ("Google connection required: " +:+ email u
                    +:+ " attempted to access " +:+ method req +:+ " " +:+ path req
                    +:+ " without Google connection")],
         Send 403
           (VObj [("success", VBool false);
                  ("message", VStr "Google account connection required. Please connect your Google account to access Gmail features.");
                  ("code", VStr "GOOGLE_NOT_CONNECTED")]))
      else
        ([log Debug ("Google connection verified: " +:+ email u +:+ " -> "
                     +:+ method req +:+ " " +:+ path req)],
         Next)
  end.

(** What running a route's handlers on a request leaves behind: the
    names of the handlers that were invoked, in order, what they logged,
    and the response sent, if any. *)
Record Run := {
  invoked : list string;
  logged : list LogEntry;
  response : option (Z * jsval)
}.

(** Express dispatch of [router.get(path, h1, ..., hn)]: the handlers are
    invoked left to right, and the one after [h] is invoked only if [h]
    called [next()]. *)
Fixpoint dispatch (handlers : list (string * Handler)) (req : Request) : Run :=
  match handlers with
  | [] => {| invoked := []; logged := []; response := None |}
  | (name, h) :: rest =>
      match h req with
      | (entries, Send status body) =>
          {| invoked := [name]; logged := entries; response := Some (status, body) |}
      | (entries, Next) =>
          let r := dispatch rest req in
          {| invoked := name :: invoked r;
             logged := entries ++ logged r;
             response := response r |}
      end
  end.

End Middleware.

(** ** The Date object *)

Module JsDate.

(** A Date holds a time value in milliseconds since the epoch, or is an
    Invalid Date ([None]). *)
Definition Date : Type := option Z.

Definition maxTime : Z := 8640000000000000.

(** [new Date(t)] for a number [t]: time values beyond 100,000,000 days
    from the epoch give an Invalid Date. *)
Definition fromTime (t : Z) : Date :=
  if Z.abs t <=? maxTime then Some t else None.

Definition msPerDay : Z := 86400000.

(** Proleptic Gregorian (year, month 1..12, day 1..31) of a day number
    counted from 1970-01-01. *)
Definition civil (dayNumber : Z) : Z * Z * Z :=
  let z := dayNumber + 719468 in
  let era := z / 146097 in
  let doe := z - era * 146097 in
  let yoe := (doe - doe / 1460 + doe / 36524 - doe / 146096) / 365 in
  let doy := doe - (365 * yoe + yoe / 4 - yoe / 100) in
  let mp := (5 * doy + 2) / 153 in
  let d := doy - (153 * mp + 2) / 5 + 1 in
  let m := if mp <? 10 then mp + 3 else mp - 9 in
  let y := yoe + era * 400 + (if m <=? 2 then 1 else 0) in
  (y, m, d).

Section Local.
(** The offset of local time from UTC, in milliseconds, at a given
    instant (it varies with daylight saving). *)
Variable localTZA : Z -> Z.

Definition localDate (t : Z) : Z * Z * Z :=
  civil ((t + localTZA t) / msPerDay).

(** [d.getFullYear()], [d.getMonth()] (0..11) and [d.getDate()];
    [NaN] on an Invalid Date. *)
Definition getFullYear (d : Date) : option Z :=
  t ← d; Some (localDate t).1.1.
Definition getMonth (d : Date) : option Z :=
  t ← d; Some ((localDate t).1.2 - 1).
Definition getDate (d : Date) : option Z :=
  t ← d; Some (localDate t).2.
End Local.

End JsDate.

(** Standard base64, as accepted by [Buffer.from(s, 'base64')]: both the
    plain and the URL-safe alphabet, decoding stops at the padding. *)
Module Base64.

Definition sextet (c : ascii) : option N :=
  let n := Js.code c in
  if ((65 <=? n) && (n <=? 90))%N then Some (n - 65)%N
  else if ((97 <=? n) && (n <=? 122))%N then Some (n - 71)%N
  else if ((48 <=? n) && (n <=? 57))%N then Some (n + 4)%N
  else if ((n =? 43) || (n =? 45))%N then Some 62%N
  else if ((n =? 47) || (n =? 95))%N then Some 63%N
  else None.

Fixpoint sextets (s : string) : list N :=
  match s with
  | String c rest =>
      if (Js.code c =? 61)%N then []
      else match sextet c with
           | Some v => v :: sextets rest
           | None => sextets rest
           end
  | EmptyString => []
  end.

Fixpoint bytes (l : list N) : string :=
  match l with
  | a :: b :: c :: d :: rest =>
      let w := (a * 262144 + b * 4096 + c * 64 + d)%N in
      String (ascii_of_N (w / 65536))
        (String (ascii_of_N ((w / 256) mod 256))
           (String (ascii_of_N (w mod 256)) (bytes rest)))
  | [a; b; c] =>
      let w := (a * 4096 + b * 64 + c)%N in
      String (ascii_of_N (w / 1024))
        (String (ascii_of_N ((w / 4) mod 256)) EmptyString)
  | [a; b] => String (ascii_of_N ((a * 64 + b) / 16)) EmptyString
  | _ => EmptyString
  end.

Definition decode (s : string) : string := bytes (sextets s).

End Base64.

(** ** src/services/gmail.service.ts *)

Module GmailService.
Import Express.

Inductive TimeRange := hours | days | weeks | months.

Module EmailFilters.
Record t := {
  isRead : option bool;
  timeRange : option TimeRange;
  timeValue : option Z;
  maxResults : option Z
}.
Definition empty : t :=
  {| isRead := None; timeRange := None; timeValue := None; maxResults := None |}.
End EmailFilters.

Module EmailMessage.
Record t := {
  id : string;
  threadId : string;
  subject : string;
  from : string;
  to : list string;
  date : JsDate.Date;
  snippet : string;
  body : string;
  isRead : bool;
  labels : list string
}.
End EmailMessage.

(** The remote payload: [gmail_v1.Schema$MessagePart] and friends. *)
Module Header.
Record t := { name : string; value : option string }.
End Header.

Module Body.
Record t := { data : option string }.
End Body.

Module Part.
Inductive t := Make {
  mimeType : option string;
  headers : option (list Header.t);
  body : option Body.t;
  parts : option (list t)
}.
End Part.

Module Message.
Record t := {
  id : string;
  threadId : string;
  snippet : option string;
  labelIds : option (list string);
  payload : option Part.t
}.
End Message.

(** Truthiness of an optional number: [undefined] and [0] are falsy. *)
Definition truthyNum (v : option Z) : bool :=
  match v with
  | Some n => negb (n =? 0)
  | None => false
  end.

(** [buildQuery], with the clock reading [now] of its [new Date()] and
    the local time zone made explicit.  The [default] arm of the switch
    has no counterpart: [TimeRange] has the four listed values only. *)
Definition buildQuery (localTZA : Z -> Z) (now : Z) (filters : EmailFilters.t) : string :=
  let queryParts : list string := [] in
  let queryParts :=
    match EmailFilters.isRead filters with
    | Some isRead => queryParts ++ [if isRead then "is:read" else "is:unread"]
    | None => queryParts
    end in
  let queryParts :=
    match EmailFilters.timeRange filters, EmailFilters.timeValue filters with
    | Some timeRange, Some timeValue =>
        if truthyNum (Some timeValue) then
          let afterDate :=
            match timeRange with
            | hours => JsDate.fromTime (now - timeValue * 60 * 60 * 1000)
            | days => JsDate.fromTime (now - timeValue * 24 * 60 * 60 * 1000)
            | weeks => JsDate.fromTime (now - timeValue * 7 * 24 * 60 * 60 * 1000)
            | months => JsDate.fromTime (now - timeValue * 30 * 24 * 60 * 60 * 1000)
            end in
          let year := JsDate.getFullYear localTZA afterDate in
          let month :=
            Js.padStart 2 "0" (Js.toString (Z.add 1 <$> JsDate.getMonth localTZA afterDate)) in
          let day := Js.padStart 2 "0" (Js.toString (JsDate.getDate localTZA afterDate)) in
          queryParts ++ ["after:" +:+ Js.toString year +:+ "/" +:+ month +:+ "/" +:+ day]
        else queryParts
    | _, _ => queryParts
    end in
  Js.join " " queryParts.

Record ParsedHeaders := {
  subject : string;
  from : string;
  to : list string;
  date : JsDate.Date
}.

(** The inner [getHeader] of [parseHeaders]. *)
Definition getHeader (headers : list Header.t) (name : string) : string :=
  let header :=
    find (fun h => String.eqb (Js.toLowerCase (Header.name h)) (Js.toLowerCase name))
         headers in
  Js.or_empty (header ≫= Header.value).

(** [parseHeaders]; [parseDate] is [new Date(string)] and [now] the
    clock reading of [new Date()]. *)
Definition parseHeaders (parseDate : string -> JsDate.Date) (now : Z)
    (headers : list Header.t) : ParsedHeaders :=
  let subject := getHeader headers "Subject" in
  let from := getHeader headers "From" in
  let to := map Js.trim (Js.split "," (getHeader headers "To")) in
  let dateStr := getHeader headers "Date" in
  let date := if Js.nonempty dateStr then parseDate dateStr else Some now in
  {| subject := subject; from := from; to := to; date := date |}.

(** [part.body?.data] *)
Definition bodyData (p : Part.t) : option string :=
  Part.body p ≫= Body.data.

Definition isMime (p : Part.t) (mime : string) : bool :=
  bool_decide (Part.mimeType p = Some mime).

(** [extractBody]; [decode s] is
    [Buffer.from(s, 'base64').toString('utf-8')].  The inner function is
    the [for] loop over [payload.parts], its argument [body] the loop's
    view of the variable [body]; returning without a recursive call is
    the [break]. *)
Fixpoint extractBody (decode : string -> string) (payload : Part.t) : string :=
  match payload with
  | Part.Make _ _ pbody pparts =>
      if Js.truthy (pbody ≫= Body.data) then decode (default "" (pbody ≫= Body.data))
      else
        match pparts with
        | Some ps =>
            (fix loop (ps : list Part.t) (body : string) : string :=
               match ps with
               | [] => body
               | part :: rest =>
                   if isMime part "text/plain" && Js.truthy (bodyData part) then
                     decode (default "" (bodyData part))
                   else if isMime part "text/html" && Js.truthy (bodyData part)
                           && negb (Js.nonempty body) then
                     loop rest (decode (default "" (bodyData part)))
                   else
                     match Part.parts part with
                     | Some _ =>
                         let body := extractBody decode part in
                         if Js.nonempty body then body else loop rest body
                     | None => loop rest body
                     end
               end) ps ""
        | None => ""
        end
  end.

(** The loop of [extractBody] as a function of its own: [scan decode
    parts body] runs the [for] loop over [parts] from a state where the
    variable holds [body]. *)
Fixpoint scan (decode : string -> string) (ps : list Part.t) (body : string) : string :=
  match ps with
  | [] => body
  | part :: rest =>
      if isMime part "text/plain" && Js.truthy (bodyData part) then
        decode (default "" (bodyData part))
      else if isMime part "text/html" && Js.truthy (bodyData part)
              && negb (Js.nonempty body) then
        scan decode rest (decode (default "" (bodyData part)))
      else
        match Part.parts part with
        | Some _ =>
            let body := extractBody decode part in
            if Js.nonempty body then body else scan decode rest body
        | None => scan decode rest body
        end
  end.

(** *** The remote calls *)

(** A computation that logs and may throw an [Error] with the given
    message ([inl]). *)
Definition Svc (A : Type) : Type := Logged (string + A).

Definition ret {A} (a : A) : Svc A := ([], inr a).

Definition throw {A} (message : string) : Svc A := ([], inl message).

Definition bind {A B} (m : Svc A) (k : A -> Svc B) : Svc B :=
  match m with
  | (entries, inl e) => (entries, inl e)
  | (entries, inr a) => let (entries', r) := k a in (entries ++ entries', r)
  end.

(** [try { m } catch (error) { handler(error.message) }] *)
Definition try_catch {A} (m : Svc A) (handler : string -> Svc A) : Svc A :=
  match m with
  | (entries, inl e) => let (entries', r) := handler e in (entries ++ entries', r)
  | (entries, inr a) => (entries, inr a)
  end.

Definition say (l : Level) (s : string) : Svc unit :=
  ([{| level := l; text := s |}], inr tt).

(** [await] of a remote call that has settled. *)
Definition await {A} (settled : string + A) : Svc A := ([], settled).

Notation "'let*' x ':=' m 'in' k" := (bind m (fun x => k))
  (at level 10, x name, m at level 100, k at level 200).
Notation "m ';;' k" := (bind m (fun _ => k))
  (at level 100, k at level 200, right associativity).

Fixpoint mapM {A B} (f : A -> Svc B) (l : list A) : Svc (list B) :=
  match l with
  | [] => ret []
  | a :: rest =>
      let* b := f a in
      let* bs := mapM f rest in
      ret (b :: bs)
  end.

Record Credentials := {
  access_token : option string;
  refresh_token : option string
}.

(** The two Gmail endpoints the service calls, as functions of what is
    sent; a call either rejects with an error message or resolves.
    [messages_list] resolves to the ids in [data.messages]. *)
Record GmailApi := {
  messages_list : Credentials -> option string -> Z -> string + option (list string);
  messages_get : Credentials -> string -> string + Message.t
}.

(** What the service takes from its environment. *)
Record Runtime := {
  now : Z;
  localTZA : Z -> Z;
  parseDate : string -> JsDate.Date;
  decode : string -> string
}.

Definition createOAuth2Client (user : UserModel.IUser) : Credentials :=
  {| access_token := UserModel.googleAccessToken user;
     refresh_token := UserModel.googleRefreshToken user |}.

Definition quote : string := String (ascii_of_N 34) EmptyString.

(** [JSON.stringify(filters)] *)
Definition stringifyFilters (filters : EmailFilters.t) : string :=
  let key k := quote +:+ k +:+ quote +:+ ":" in
  let entry {A} (k : string) (show : A -> string) (v : option A) : list string :=
    match v with
    | Some a => [key k +:+ show a]
    | None => []
    end in
  "{" +:+ Js.join ","
    (entry "isRead" (fun b : bool => if b then "true" else "false")
           (EmailFilters.isRead filters)
     ++ entry "timeRange"
           (fun r => quote +:+ match r with
                               | hours => "hours" | days => "days"
                               | weeks => "weeks" | months => "months"
                               end +:+ quote)
           (EmailFilters.timeRange filters)
     ++ entry "timeValue" (fun n : Z => pretty n) (EmailFilters.timeValue filters)
     ++ entry "maxResults" (fun n : Z => pretty n) (EmailFilters.maxResults filters))
  +:+ "}".

(** The normalisation both entry points apply to a fetched message.
    Reading [msg.payload.body] of a message without payload throws. *)
Definition normalise (rt : Runtime) (msg : Message.t) : Svc EmailMessage.t :=
  let headers := default [] (Message.payload msg ≫= Part.headers) in
  let parsed := parseHeaders (parseDate rt) (now rt) headers in
  let* body :=
    match Message.payload msg with
    | Some payload => ret (extractBody (decode rt) payload)
    | None => throw "Cannot read properties of undefined (reading 'body')"
    end in
  let isRead :=
    negb (match Message.labelIds msg with
          | Some ids => existsb (String.eqb "UNREAD") ids
          | None => false
          end) in
  ret {| EmailMessage.id := Message.id msg;
         EmailMessage.threadId := Message.threadId msg;
         EmailMessage.subject := subject parsed;
         EmailMessage.from := from parsed;
         EmailMessage.to := to parsed;
         EmailMessage.date := date parsed;
         EmailMessage.snippet := Js.or_empty (Message.snippet msg);
         EmailMessage.body := body;
         EmailMessage.isRead := isRead;
         EmailMessage.labels := default [] (Message.labelIds msg) |}.

(** [getEmails].  The fetches of [Promise.all] are run in list order, so
    when several of them fail the first one in the list is reported. *)
Definition getEmails (rt : Runtime) (api : GmailApi)
    (user : UserModel.IUser) (filters : EmailFilters.t) : Svc (list EmailMessage.t) :=
  try_catch
    (let auth := createOAuth2Client user in
     let query := buildQuery (localTZA rt) (now rt) filters in
     let maxResults :=
       if truthyNum (EmailFilters.maxResults filters)
       then default 50 (EmailFilters.maxResults filters) else 50 in
     say Debug ("Fetching emails for " +:+ UserModel.email user
                +:+ " with query: " +:+ quote +:+ query +:+ quote) ;;
     let* listResponse :=
       await (messages_list api auth
                (if Js.nonempty query then Some query else None) maxResults) in
     let messages := default [] listResponse in
     if (length messages =? 0)%nat then
       say Info ("No emails found for " +:+ UserModel.email user
                 +:+ " with filters: " +:+ stringifyFilters filters) ;;
       ret []
     else
       let* emails :=
         mapM (fun id => let* messageData := await (messages_get api auth id) in
                         normalise rt messageData)
              messages in
       say Info ("Successfully fetched " +:+ pretty (length emails)
                 +:+ " emails for " +:+ UserModel.email user) ;;
       ret emails)
    (fun error =>
       say Error ("Error fetching emails for " +:+ UserModel.email user +:+ ":") ;;
       throw ("Failed to fetch emails: " +:+ error)).

(** [getEmailById] *)
Definition getEmailById (rt : Runtime) (api : GmailApi)
    (user : UserModel.IUser) (emailId : string) : Svc EmailMessage.t :=
  try_catch
    (let auth := createOAuth2Client user in
     say Debug ("Fetching email " +:+ emailId +:+ " for " +:+ UserModel.email user) ;;
     let* messageData := await (messages_get api auth emailId) in
     let* email := normalise rt messageData in
     say Info ("Successfully fetched email " +:+ emailId
               +:+ " for " +:+ UserModel.email user) ;;
     ret email)
    (fun error =>
       say Error ("Error fetching email " +:+ emailId
                  +:+ " for " +:+ UserModel.email user +:+ ":") ;;
       throw ("Failed to fetch email: " +:+ error)).

End GmailService.

(** ** controllers/email.controller.ts *)

Module EmailController.
Import Express Middleware GmailService.

Definition errorBody (message : string) : jsval :=
  VObj [("error", VStr message)].

Definition rangeOf (s : string) : option TimeRange :=
  if String.eqb s "hours" then Some hours
  else if String.eqb s "days" then Some days
  else if String.eqb s "weeks" then Some weeks
  else if String.eqb s "months" then Some months
  else None.

Definition rangeName (r : TimeRange) : string :=
  match r with
  | hours => "hours"
  | days => "days"
  | weeks => "weeks"
  | months => "months"
  end.

(** Sequencing of steps that may [return] early with a response body. *)
#[export] Instance early_return {E} : MBind (sum E) := fun A B k step =>
  match step with
  | inl e => inl e
  | inr a => k a
  end.

(** The part of [getEmails] that fills [filters] from [req.query] and
    returns early with a 400 response ([inl]) on a bad value. *)
Definition readFilters (query : gmap string string) : jsval + EmailFilters.t :=
  let filters := EmailFilters.empty in
  let filters :=
    match query !! "isRead" with
    | Some v =>
        {| EmailFilters.isRead := Some (String.eqb v "true");
           EmailFilters.timeRange := EmailFilters.timeRange filters;
           EmailFilters.timeValue := EmailFilters.timeValue filters;
           EmailFilters.maxResults := EmailFilters.maxResults filters |}
    | None => filters
    end in
  filters ←
    (if Js.truthy (query !! "timeRange") then
       match rangeOf (default "" (query !! "timeRange")) with
       | Some timeRange =>
           inr {| EmailFilters.isRead := EmailFilters.isRead filters;
                  EmailFilters.timeRange := Some timeRange;
                  EmailFilters.timeValue := EmailFilters.timeValue filters;
                  EmailFilters.maxResults := EmailFilters.maxResults filters |}
       | None =>
           inl (errorBody "Invalid timeRange. Must be one of: hours, days, weeks, months")
       end
     else inr filters);
  filters ←
    (if Js.truthy (query !! "timeValue") then
       let timeValue := Js.parseInt (default "" (query !! "timeValue")) in
       if Js.isNaN timeValue || Js.leb timeValue 0
       then inl (errorBody "timeValue must be a positive number")
       else
         inr {| EmailFilters.isRead := EmailFilters.isRead filters;
                EmailFilters.timeRange := EmailFilters.timeRange filters;
                EmailFilters.timeValue := timeValue;
                EmailFilters.maxResults := EmailFilters.maxResults filters |}
     else inr filters);
  filters ←
    (if Js.truthy (query !! "maxResults") then
       let maxResults := Js.parseInt (default "" (query !! "maxResults")) in
       if Js.isNaN maxResults || Js.leb maxResults 0 || Js.gtb maxResults 500
       then inl (errorBody "maxResults must be between 1 and 500")
       else
         inr {| EmailFilters.isRead := EmailFilters.isRead filters;
                EmailFilters.timeRange := EmailFilters.timeRange filters;
                EmailFilters.timeValue := EmailFilters.timeValue filters;
                EmailFilters.maxResults := maxResults |}
     else inr filters);
  if bool_decide (is_Some (EmailFilters.timeRange filters))
     && negb (truthyNum (EmailFilters.timeValue filters))
  then inl (errorBody "timeValue is required when timeRange is specified")
  else if truthyNum (EmailFilters.timeValue filters)
          && negb (bool_decide (is_Some (EmailFilters.timeRange filters)))
  then inl (errorBody "timeRange is required when timeValue is specified")
  else inr filters.

Definition optField {A} (k : string) (f : A -> jsval) (v : option A)
    : list (string * jsval) :=
  match v with
  | Some a => [(k, f a)]
  | None => []
  end.

(** The [filters] object as the response carries it. *)
Definition filtersVal (filters : EmailFilters.t) : jsval :=
  VObj (optField "isRead" VBool (EmailFilters.isRead filters)
        ++ optField "timeRange" (fun r => VStr (rangeName r)) (EmailFilters.timeRange filters)
        ++ optField "timeValue" VNum (EmailFilters.timeValue filters)
        ++ optField "maxResults" VNum (EmailFilters.maxResults filters)).

Definition emailVal (e : EmailMessage.t) : jsval :=
  VObj [("id", VStr (EmailMessage.id e));
        ("threadId", VStr (EmailMessage.threadId e));
        ("subject", VStr (EmailMessage.subject e));
        ("from", VStr (EmailMessage.from e));
        ("to", VArr (map VStr (EmailMessage.to e)));
        ("date", VDate (EmailMessage.date e));
        ("snippet", VStr (EmailMessage.snippet e));
        ("body", VStr (EmailMessage.body e));
        ("isRead", VBool (EmailMessage.isRead e));
        ("labels", VArr (map VStr (EmailMessage.labels e)))].

(** [error.message.includes('invalid_grant') || error.message.includes('Token')] *)
Definition authExpired (message : string) : bool :=
  Js.includes "invalid_grant" message || Js.includes "Token" message.

Definition authExpiredBody : jsval :=
  VObj [("error", VStr "Google authentication expired. Please re-authenticate.");
        ("code", VStr "AUTH_EXPIRED")].

(** [getEmails]; [service] is [gmailService.getEmails]. *)
Definition getEmails
    (service : UserModel.IUser -> EmailFilters.t -> Svc (list EmailMessage.t))
    : Handler := fun req =>
  match user req with
  | None => ([], Send 401 (errorBody "User not authenticated"))
  | Some user =>
      match readFilters (query req) with
      | inl body => ([], Send 400 body)
      | inr filters =>
          let entry :=
            log Info ("Fetching emails for user " +:+ UserModel.email user
                      +:+ " with filters:") in
          match service user filters with
          | (entries, inr emails) =>
              (entry :: entries,
               Send 200
                 (VObj [("success", VBool true);
                        ("count", VNum (Z.of_nat (length emails)));
                        ("filters", filtersVal filters);
                        ("emails", VArr (map emailVal emails))]))
          | (entries, inl message) =>
              (entry :: entries ++ [log Error "Error in getEmails controller:"],
               if authExpired message then Send 401 authExpiredBody
               else Send 500 (VObj [("error", VStr "Failed to fetch emails");
                                    ("message", VStr message)]))
          end
      end
  end.

(** [getEmailById]; [service] is [gmailService.getEmailById]. *)
Definition getEmailById
    (service : UserModel.IUser -> string -> Svc EmailMessage.t)
    : Handler := fun req =>
  match user req with
  | None => ([], Send 401 (errorBody "User not authenticated"))
  | Some user =>
      let emailId := params req !! "id" in
      if negb (Js.truthy emailId) then ([], Send 400 (errorBody "Email ID is required"))
      else
        let emailId := default "" emailId in
        let entry :=
          log Info ("Fetching email " +:+ emailId +:+ " for user "
                    +:+ UserModel.email user) in
        match service user emailId with
        | (entries, inr email) =>
            (entry :: entries,
             Send 200 (VObj [("success", VBool true); ("email", emailVal email)]))
        | (entries, inl message) =>
            (entry :: entries ++ [log Error "Error in getEmailById controller:"],
             if authExpired message then Send 401 authExpiredBody
             else if Js.includes "Not Found" message || Js.includes "404" message
             then Send 404 (VObj [("error", VStr "Email not found");
                                  ("message", VStr message)])
             else Send 500 (VObj [("error", VStr "Failed to fetch email");
                                  ("message", VStr message)]))
        end
  end.

(** routes/email.routes.ts: the two routes, with the rate limiter of
    express-rate-limit taken as given. *)
Definition emailsRoute (apiRateLimiter : Handler) (rt : Runtime) (api : GmailApi)
    : list (string * Handler) :=
  [("apiRateLimiter", apiRateLimiter);
   ("requireUser", requireUser);
   ("requireConnectedGoogle", requireConnectedGoogle);
   ("emailController.getEmails", getEmails (GmailService.getEmails rt api))].

Definition emailByIdRoute (apiRateLimiter : Handler) (rt : Runtime) (api : GmailApi)
    : list (string * Handler) :=
  [("apiRateLimiter", apiRateLimiter);
   ("requireUser", requireUser);
   ("requireConnectedGoogle", requireConnectedGoogle);
   ("emailController.getEmailById", getEmailById (GmailService.getEmailById rt api))].

End EmailController.

(** ** The statements of the specification *)

Module Spec.
Import Express UserModel Middleware GmailService.

(** [hay] contains [needle] as a substring. *)
Definition contains (needle hay : string) : Prop :=
  exists before after, hay = before +:+ needle +:+ after.

(** The identity's role set intersects the required roles. *)
Definition intersects (have required : list Role) : Prop :=
  exists r, r ∈ have /\ r ∈ required.

(** A parameter counts as present when it has a non-empty value. *)
Definition present (v : option string) : Prop :=
  exists s, v = Some s /\ s <> "".

Definition absent (v : option string) : Prop :=
  v = None \/ v = Some "".

(** Two user documents that differ at most in their Google tokens. *)
Definition sameButTokens (a b : IUser) : Prop :=
  _id a = _id b /\ email a = email b /\ name a = name b
  /\ timeZone a = timeZone b /\ roles a = roles b
  /\ createdAt a = createdAt b /\ updatedAt a = updatedAt b.

Definition tokenKey (k : string) : Prop :=
  k = "googleAccessToken" \/ k = "googleRefreshToken".

(** *** Filter Record and query synthesis (4.1, 4.2) *)

(** A validated Filter Record: a positive count, unit and count both set
    or both unset, a result cap between 1 and 500. *)
Definition FilterRecord (f : EmailFilters.t) : Prop :=
  (forall n, EmailFilters.timeValue f = Some n -> 0 < n)
  /\ (is_Some (EmailFilters.timeRange f) <-> is_Some (EmailFilters.timeValue f))
  /\ (forall n, EmailFilters.maxResults f = Some n -> 1 <= n <= 500).

(** The result cap, when given, parses to an integer from 1 to 500. *)
Definition capAccepted (q : gmap string string) : Prop :=
  absent (q !! "maxResults")
  \/ exists s n, q !! "maxResults" = Some s /\ Js.parseInt s = Some n /\ 1 <= n <= 500.

(** Unit durations: an hour is 3600 s, a day 24 h, a week 7 days, a
    month 30 days. *)
Definition hourSeconds : Z := 3600.
Definition daySeconds : Z := 24 * hourSeconds.
Definition unitSeconds (r : TimeRange) : Z :=
  match r with
  | hours => hourSeconds
  | days => daySeconds
  | weeks => 7 * daySeconds
  | months => 30 * daySeconds
  end.

(** The cutoff instant, in milliseconds: now - count x unit. *)
Definition cutoff (now : Z) (r : TimeRange) (count : Z) : Z :=
  now - count * (unitSeconds r * 1000).

(** YYYY/MM/DD as the specification writes it: a year of four digits,
    a month and a day of two. *)
Definition calendar (ymd : Z * Z * Z) : string :=
  Js.padStart 4 "0" (pretty ymd.1.1) +:+ "/" +:+ Js.padStart 2 "0" (pretty ymd.1.2)
  +:+ "/" +:+ Js.padStart 2 "0" (pretty ymd.2).

(** The date as it is printed for the instant [t]: the year in decimal
    as it stands (no padding, a minus sign before the year 0), the month
    and the day padded to two digits; [NaN] three times when [t] is not
    an instant a Date can hold. *)
Definition printedDate (localTZA : Z -> Z) (t : Z) : string :=
  if Z.abs t <=? JsDate.maxTime then
    let ymd := JsDate.localDate localTZA t in
    pretty ymd.1.1 +:+ "/" +:+ Js.padStart 2 "0" (pretty ymd.1.2)
    +:+ "/" +:+ Js.padStart 2 "0" (pretty ymd.2)
  else "NaN/NaN/NaN".

Definition readClause (f : EmailFilters.t) : list string :=
  match EmailFilters.isRead f with
  | Some true => ["is:read"]
  | Some false => ["is:unread"]
  | None => []
  end.

Definition timeClause (localTZA : Z -> Z) (now : Z) (f : EmailFilters.t) : list string :=
  match EmailFilters.timeRange f, EmailFilters.timeValue f with
  | Some r, Some n => ["after:" +:+ calendar (JsDate.localDate localTZA (cutoff now r n))]
  | _, _ => []
  end.

(** The applicable clauses, joined by single spaces, as the
    specification has them. *)
Definition query (localTZA : Z -> Z) (now : Z) (f : EmailFilters.t) : string :=
  String.concat " " (readClause f ++ timeClause localTZA now f).

(** The time clause with the date as printed. *)
Definition afterClause (localTZA : Z -> Z) (now : Z) (f : EmailFilters.t) : list string :=
  match EmailFilters.timeRange f, EmailFilters.timeValue f with
  | Some r, Some n => ["after:" +:+ printedDate localTZA (cutoff now r n)]
  | _, _ => []
  end.

Definition synthesized (localTZA : Z -> Z) (now : Z) (f : EmailFilters.t) : string :=
  String.concat " " (readClause f ++ afterClause localTZA now f).

(** Two filters with the same read flag, unit and count. *)
Definition sameWindow (f f' : EmailFilters.t) : Prop :=
  EmailFilters.isRead f' = EmailFilters.isRead f
  /\ EmailFilters.timeRange f' = EmailFilters.timeRange f
  /\ EmailFilters.timeValue f' = EmailFilters.timeValue f.

(** *** Header and body extraction (4.4, 4.5) *)

(** The header name matches [name], letter case aside. *)
Definition named (name : string) (h : Header.t) : Prop :=
  Js.toLowerCase (Header.name h) = Js.toLowerCase name.

(** [h] is the first header of the list with that name. *)
Definition firstNamed (name : string) (headers : list Header.t) (h : Header.t) : Prop :=
  exists before after,
    headers = before ++ h :: after /\ named name h
    /\ Forall (fun h' => ~ named name h') before.

Definition noneNamed (name : string) (headers : list Header.t) : Prop :=
  Forall (fun h => ~ named name h) headers.

(** A [text/plain] part that carries data. *)
Definition plainPart (p : Part.t) : Prop :=
  Part.mimeType p = Some "text/plain" /\ present (bodyData p).

(** The data of every [text/plain] part with data in the tree, the root
    included, in document order. *)
Fixpoint plainData (p : Part.t) : list string :=
  match p with
  | Part.Make mime _ b ps =>
      (if bool_decide (mime = Some "text/plain") && Js.truthy (b ≫= Body.data)
       then [default "" (b ≫= Body.data)] else [])
      ++ match ps with
         | Some children =>
             (fix all (l : list Part.t) : list string :=
                match l with
                | [] => []
                | c :: rest => plainData c ++ all rest
                end) children
         | None => []
         end
  end.

(** A child the scan goes past without stopping: it is not a
    [text/plain] part with data, and it has no parts of its own or
    extracts to the empty string. *)
Definition passedOver (decode : string -> string) (c : Part.t) : Prop :=
  ~ plainPart c /\ (Part.parts c = None \/ extractBody decode c = "").

(** [firstPlain decode node d]: the data [d] belongs to a [text/plain]
    part somewhere below [node] that the scan gets to: no part on the
    way down carries data of its own, and at every level the siblings
    before the way down are passed over. *)
Inductive firstPlain (decode : string -> string) : Part.t -> string -> Prop :=
| firstPlain_child m h b before c after d :
    absent (b ≫= Body.data) ->
    Forall (passedOver decode) before ->
    Part.mimeType c = Some "text/plain" -> bodyData c = Some d -> d <> "" ->
    firstPlain decode (Part.Make m h b (Some (before ++ c :: after))) d
| firstPlain_below m h b before c after d :
    absent (b ≫= Body.data) ->
    Forall (passedOver decode) before ->
    absent (bodyData c) -> firstPlain decode c d ->
    firstPlain decode (Part.Make m h b (Some (before ++ c :: after))) d.

End Spec.

(** ** Sample data *)

Module Examples.
Import Express UserModel Middleware GmailService EmailController.

Definition alice : IUser :=
  {| _id := {| hex := "64b7f0c2a1d3e4f5a6b7c8d9" |};
     email := "alice@example.com"; name := "Alice"; timeZone := "America/New_York";
     roles := [USER];
     googleAccessToken := Some "ya29.access"; googleRefreshToken := Some "1//refresh";
     createdAt := 1700000000000; updatedAt := 1700000500000 |}.

(** Alice after a token refresh. *)
Definition aliceRefreshed : IUser :=
  {| _id := _id alice; email := email alice; name := name alice;
     timeZone := timeZone alice; roles := roles alice;
     googleAccessToken := Some "ya29.other"; googleRefreshToken := None;
     createdAt := createdAt alice; updatedAt := updatedAt alice |}.

Definition root : IUser :=
  {| _id := {| hex := "64b7f0c2a1d3e4f5a6b7c8e0" |};
     email := "root@example.com"; name := "Root"; timeZone := "UTC";
     roles := [USER; ADMIN];
     googleAccessToken := None; googleRefreshToken := None;
     createdAt := 1700000000000; updatedAt := 1700000000000 |}.

Definition request (m p : string) (ps qs : list (string * string)) (u : option IUser)
    : Request :=
  {| method := m; path := p; params := list_to_map ps; query := list_to_map qs;
     user := u; isAuthenticated := bool_decide (is_Some u) |}.

(** A rate limiter with room left. *)
Definition openLimiter : Handler := fun _ => ([], Next).

(** 2024-01-15T12:00:00Z on a machine running in UTC. *)
Definition noon : Z := 1705320000000.
Definition utc : Z -> Z := fun _ => 0.

Definition knownDates (s : string) : JsDate.Date :=
  if String.eqb s "Mon, 1 Jan 2024 10:00:00 GMT" then Some 1704103200000 else None.

Definition runtime : Runtime :=
  {| now := noon; localTZA := utc; parseDate := knownDates; decode := Base64.decode |}.

(** Remote ends that reject every call. *)
Definition rejecting (message : string) : GmailApi :=
  {| messages_list := fun _ _ _ => inl message;
     messages_get := fun _ _ => inl message |}.

Definition leaf (mime data : string) : Part.t :=
  Part.Make (Some mime) None (Some {| Body.data := Some data |}) None.

Definition multipart (children : list Part.t) : Part.t :=
  Part.Make (Some "multipart/alternative") None None (Some children).

(** "Plain text body" and "<p>HTML body</p>" *)
Definition plainLeaf : Part.t := leaf "text/plain" "UGxhaW4gdGV4dCBib2R5".
Definition htmlLeaf : Part.t := leaf "text/html" "PHA+SFRNTCBib2R5PC9wPg==".

Definition subjectHeader : Header.t :=
  {| Header.name := "Subject"; Header.value := Some "Hello" |}.
Definition toHeader : Header.t :=
  {| Header.name := "to"; Header.value := Some "a@example.com , b@example.com" |}.
Definition dateHeader : Header.t :=
  {| Header.name := "DATE"; Header.value := Some "Mon, 1 Jan 2024 10:00:00 GMT" |}.

Definition lastWeekUnread : EmailFilters.t :=
  {| EmailFilters.isRead := Some false; EmailFilters.timeRange := Some days;
     EmailFilters.timeValue := Some 7; EmailFilters.maxResults := None |}.

(** A window of [count] 30-day months, nothing else set. *)
Definition monthsBack (count : Z) : EmailFilters.t :=
  {| EmailFilters.isRead := None; EmailFilters.timeRange := Some months;
     EmailFilters.timeValue := Some count; EmailFilters.maxResults := None |}.

End Examples.

(** ** controllers/auth.controller.ts and routes/auth.routes.ts *)

Module AuthController.
Import Express UserModel Middleware.



(** [isAuthenticated], the older gate *)
Definition isAuthenticated : Handler := fun req =>
  if Middleware.isAuthenticated req then ([], Next)
  else ([], Send 401 (VObj [("success", VBool false);
                            ("message", VStr "Authentication required")])).


End AuthController.

(** ** config/passport.ts *)

Module Passport.
Import Express UserModel.

(** The parts of the Google profile the strategy reads. *)
Module Email.
Record t := { value : option string }.
End Email.

Module Name.
Record t := { givenName : option string; familyName : option string }.
End Name.

Module Profile.
Record t := {
  emails : option (list Email.t);
  displayName : option string;
  name : option Name.t
}.
End Profile.

(** The object handed to [new User({...})]. *)
Module NewUser.
Record t := {
  email : string;
  name : string;
  timeZone : string;
  googleAccessToken : string;
  googleRefreshToken : string
}.
End NewUser.

(** The Mongoose model as the strategy uses it: [User.findOne({ email })]
    and [user.save()] settle with an error message or a result,
    [new User(...)] builds a document.  A save that succeeds leaves the
    document as stored (Mongoose stamps [updatedAt], and the identifier
    and defaults of a new document). *)
Record UserStore := {
  findOne : string -> string + option IUser;
  save : IUser -> string + IUser;
  construct : NewUser.t -> IUser
}.

(** The calls made on the model, in order. *)
Inductive Call :=
| FindOne (email : string)
| Save (user : IUser).

(** [done(error)] and [done(null, user)] *)
Inductive Done :=
| Failed (message : string)
| LoggedIn (user : IUser).

Record Verified := {
  calls : list Call;
  entries : list LogEntry;
  done : Done
}.

(** [profile.emails?.[0]?.value] *)
Definition firstEmail (profile : Profile.t) : option string :=
  (Profile.emails profile ≫= head) ≫= Email.value.

(** The name the strategy settles on: the display name, else given and
    family name, else the part of the address before the first [@]. *)
Definition chooseName (profile : Profile.t) (email : string) : string :=
  let name := Js.or_empty (Profile.displayName profile) in
  let name :=
    if negb (Js.nonempty name) then
      let firstName := Js.or_empty (Profile.name profile ≫= Name.givenName) in
      let lastName := Js.or_empty (Profile.name profile ≫= Name.familyName) in
      Js.trim (firstName +:+ " " +:+ lastName)
    else name in
  if negb (Js.nonempty name) then default "" (head (Js.split "@" email))
  else name.

Definition entry (l : Level) (s : string) : LogEntry := {| level := l; text := s |}.

(** The verify callback of the Google strategy. *)
Definition verify (store : UserStore) (accessToken refreshToken : string)
    (profile : Profile.t) : Verified :=
  let first := firstEmail profile in
  let hello :=
    entry Info ("Google OAuth callback for user: "
                +:+ match first with Some v => v | None => "undefined" end) in
  let failed (calls : list Call) (message : string) : Verified :=
    {| calls := calls;
       entries := [hello; entry Error "Error in Google OAuth strategy:"];
       done := Failed message |} in
  if negb (Js.truthy first) then
    {| calls := []; entries := [hello];
       done := Failed "No email found in Google profile" |}
  else
    let email := default "" first in
    let name := chooseName profile email in
    match findOne store email with
    | inl message => failed [FindOne email] message
    | inr (Some user) =>
        let user :=
          {| _id := _id user; UserModel.email := UserModel.email user;
             UserModel.name := UserModel.name user; timeZone := timeZone user;
             roles := roles user;
             googleAccessToken := Some accessToken;
             googleRefreshToken :=
               if Js.nonempty refreshToken then Some refreshToken
               else googleRefreshToken user;
             createdAt := createdAt user; updatedAt := updatedAt user |} in
        match save store user with
        | inl message => failed [FindOne email; Save user] message
        | inr saved =>
            {| calls := [FindOne email; Save user];
               entries := [hello; entry Info ("Existing user logged in: " +:+ email)];
               done := LoggedIn saved |}
        end
    | inr None =>
        let user :=
          construct store
            {| NewUser.email := email; NewUser.name := name;
               NewUser.timeZone := "America/New_York";
               NewUser.googleAccessToken := accessToken;
               NewUser.googleRefreshToken := refreshToken |} in
        match save store user with
        | inl message => failed [FindOne email; Save user] message
        | inr saved =>
            {| calls := [FindOne email; Save user];
               entries := [hello;
                           entry Info ("New user created via Google OAuth: " +:+ email)];
               done := LoggedIn saved |}
        end
    end.

End Passport.

(** ** Notions used by the further properties *)

Module Behaviour.
Import Express UserModel Middleware GmailService.

(** The data of every part of the tree that carries data, the root
    included, in document order. *)
Fixpoint allData (p : Part.t) : list string :=
  match p with
  | Part.Make _ _ b ps =>
      (if Js.truthy (b ≫= Body.data) then [default "" (b ≫= Body.data)] else [])
      ++ match ps with
         | Some children =>
             (fix all (l : list Part.t) : list string :=
                match l with
                | [] => []
                | c :: rest => allData c ++ all rest
                end) children
         | None => []
         end
  end.

(** A part without a [parts] field. *)
Definition leaf (p : Part.t) : Prop := Part.parts p = None.

(** A [text/html] part that carries data. *)
Definition htmlPart (p : Part.t) : Prop :=
  Part.mimeType p = Some "text/html" /\ Spec.present (bodyData p).

(** A leaf that is neither a plain-text nor an html part with data, such
    as an attachment. *)
Definition attachment (p : Part.t) : Prop :=
  leaf p /\ ~ Spec.plainPart p /\ ~ htmlPart p.

(** The decoded texts of the html parts with data among [ps]. *)
Definition htmlTexts (decode : string -> string) (ps : list Part.t) : list string :=
  map (fun p => decode (default "" (bodyData p)))
      (filter (fun p => isMime p "text/html" && Js.truthy (bodyData p) = true) ps).

(** How often the character occurs in the string. *)
Fixpoint occurrences (c : ascii) (s : string) : nat :=
  match s with
  | String c' rest => (if Ascii.eqb c' c then 1 else 0) + occurrences c rest
  | EmptyString => 0
  end.

(** The read flag agrees with the labels. *)
Definition readFlagConsistent (e : EmailMessage.t) : Prop :=
  EmailMessage.isRead e = true <-> "UNREAD" ∉ EmailMessage.labels e.

(** The filter record with another unit and count. *)
Definition withWindow (f : EmailFilters.t) (r : TimeRange) (n : Z) : EmailFilters.t :=
  {| EmailFilters.isRead := EmailFilters.isRead f;
     EmailFilters.timeRange := Some r;
     EmailFilters.timeValue := Some n;
     EmailFilters.maxResults := EmailFilters.maxResults f |}.

(** What [getEmails] does with one listed message: fetch it, then
    normalise it. *)
Definition fetchOne (rt : Runtime) (api : GmailApi) (u : IUser) (id : string)
    : Svc EmailMessage.t :=
  bind (await (messages_get api (createOAuth2Client u) id)) (normalise rt).

(** What [getEmails] sends to the remote list call. *)
Definition listCall (rt : Runtime) (api : GmailApi) (u : IUser) (f : EmailFilters.t)
    : string + option (list string) :=
  messages_list api (createOAuth2Client u)
    (if Js.nonempty (buildQuery (localTZA rt) (now rt) f)
     then Some (buildQuery (localTZA rt) (now rt) f) else None)
    (if truthyNum (EmailFilters.maxResults f)
     then default 50 (EmailFilters.maxResults f) else 50).


End Behaviour.

(** ** More sample data *)

Module Samples.
Import Express UserModel Middleware GmailService EmailController Examples Passport.

(** A part that carries an attachment: no data of its own, no parts. *)
Definition pdfLeaf : Part.t :=
  Part.Make (Some "application/pdf") None (Some {| Body.data := None |}) None.

Definition unreadMessage : Message.t :=
  {| Message.id := "m1"; Message.threadId := "t1"; Message.snippet := Some "Plain text";
     Message.labelIds := Some ["INBOX"; "UNREAD"];
     Message.payload :=
       Some (Part.Make (Some "multipart/alternative") (Some [subjectHeader; toHeader])
               None (Some [plainLeaf; htmlLeaf])) |}.

Definition readMessage : Message.t :=
  {| Message.id := "m2"; Message.threadId := "t2"; Message.snippet := None;
     Message.labelIds := Some ["INBOX"];
     Message.payload := Some plainLeaf |}.

(** A mailbox that lists [ids] and holds the two messages. *)
Definition mailbox (ids : option (list string)) : GmailApi :=
  {| messages_list := fun _ _ _ => inr ids;
     messages_get := fun _ id =>
       if String.eqb id "m1" then inr unreadMessage
       else if String.eqb id "m2" then inr readMessage
       else inl "Not Found" |}.


Definition googleProfile : Profile.t :=
  {| Profile.emails := Some [{| Email.value := Some "alice@example.com" |}];
     Profile.displayName := Some "Alice A.";
     Profile.name := Some {| Name.givenName := Some "Alice";
                             Name.familyName := Some "Archer" |} |}.

(** A profile without a display name and without a family name. *)
Definition bareProfile : Profile.t :=
  {| Profile.emails := Some [{| Email.value := Some "bob@example.com" |}];
     Profile.displayName := None;
     Profile.name := Some {| Name.givenName := Some "Bob"; Name.familyName := None |} |}.

Definition noAddressProfile : Profile.t :=
  {| Profile.emails := Some []; Profile.displayName := Some "Nobody";
     Profile.name := None |}.

Definition newDocument (n : NewUser.t) : IUser :=
  {| _id := {| hex := "64b7f0c2a1d3e4f5a6b7c8f1" |};
     email := NewUser.email n; name := NewUser.name n;
     timeZone := NewUser.timeZone n; roles := [USER];
     googleAccessToken := Some (NewUser.googleAccessToken n);
     googleRefreshToken := Some (NewUser.googleRefreshToken n);
     createdAt := noon; updatedAt := noon |}.

(** A store that holds Alice and accepts every save. *)
Definition store : UserStore :=
  {| findOne := fun e =>
       if String.eqb e "alice@example.com" then inr (Some alice) else inr None;
     save := fun u => inr u;
     construct := newDocument |}.

(** A store whose calls are all rejected. *)
Definition failingStore (message : string) : UserStore :=
  {| findOne := fun _ => inl message;
     save := fun _ => inl message;
     construct := newDocument |}.

End Samples.

(** * Properties *)

Section Strings.

Lemma startsWith_spec (n h : string) :
  Js.startsWith n h = true <-> exists rest, h = n +:+ rest.
Proof.
  revert h; induction n as [|c n IH]; intros h; simpl.
  - split; [intros _; by exists h | done].
  - destruct h as [|c' h]; [split; [done | intros [? ?]; discriminate]|].
    rewrite andb_true_iff, IH, Ascii.eqb_eq.
    split.
    + intros [-> [rest ->]]. by exists rest.
    + intros [rest [= -> ->]]. eauto.
Qed.

Lemma includes_spec (n h : string) :
  Js.includes n h = true <-> Spec.contains n h.
Proof.
  unfold Spec.contains. induction h as [|c h IH]; simpl.
  - rewrite orb_false_r, startsWith_spec. split.
    + intros [rest E]. by exists "", rest.
    + intros [[|? ?] [post E]]; simpl in E; [eauto | discriminate].
  - rewrite orb_true_iff, IH, startsWith_spec. split.
    + intros [[rest E] | (pre & post & E)].
      * by exists "", rest.
      * exists (String c pre), post. simpl. by rewrite E.
    + intros ([|c' pre] & post & E); simpl in E.
      * left. eauto.
      * right. exists pre, post.
        change (String c h = String c' (pre +:+ n +:+ post)) in E. congruence.
Qed.

Lemma truthy_present (v : option string) :
  Js.truthy v = true <-> Spec.present v.
Proof.
  unfold Spec.present. destruct v as [[|c s]|]; simpl; split; try done.
  - intros (s & [= <-] & H). done.
  - intros _. eexists. split; [done | done].
  - intros (s & H & _). done.
Qed.

Lemma truthy_absent (v : option string) :
  Js.truthy v = false <-> Spec.absent v.
Proof.
  unfold Spec.absent. destruct v as [[|c s]|]; simpl; split; try done; eauto.
  intros [H | H]; discriminate.
Qed.

End Strings.

(** ** The authorization chain *)

Section Gates.
Import Express UserModel Middleware.

Lemma Role_eqb_eq (a b : Role) : Role_eqb a b = true <-> a = b.
Proof. destruct a, b; simpl; split; congruence. Qed.

Lemma hasRequiredRole_spec (u : IUser) (required : list Role) :
  hasRequiredRole u required = true <-> Spec.intersects (roles u) required.
Proof.
  unfold hasRequiredRole, Spec.intersects.
  rewrite existsb_exists. split.
  - intros (r & Hin & Hex). apply existsb_exists in Hex as (r' & Hin' & Heq).
    apply Role_eqb_eq in Heq as ->.
    exists r'. by rewrite !list_elem_of_In.
  - intros (r & Hin & Hin'). exists r. rewrite <- list_elem_of_In. split; [done|].
    apply existsb_exists. exists r. rewrite <- list_elem_of_In.
    split; [done | by apply Role_eqb_eq].
Qed.

(** C1. Behind an authenticated identity, the ownership-or-role gate for
    parameter [paramName] and bypass roles [required] answers 400
    "Invalid request" when the route parameters hold no value for
    [paramName] (no entry, or the empty string, which the gate's test does
    not tell apart); otherwise it calls the next handler as soon as the
    identity's id, as a string, equals the value or one of its roles is
    among [required]; otherwise it answers 403 "Access denied". *)
Theorem ownership_or_role_gate
    (paramName : string) (required : list Role) (req : Request) (u : IUser) :
  user req = Some u ->
  let outcome := (requireOwnershipOrRole paramName required req).2 in
  (Spec.absent (params req !! paramName) ->
     outcome = Send 400 (VObj [("success", VBool false);
                               ("message", VStr "Invalid request")]))
  /\ (forall v, params req !! paramName = Some v -> v <> "" ->
        (ObjectId_toString (_id u) = v \/ Spec.intersects (roles u) required ->
           outcome = Next)
        /\ (ObjectId_toString (_id u) <> v ->
            ~ Spec.intersects (roles u) required ->
            outcome = Send 403 (VObj [("success", VBool false);
                                      ("message", VStr "Access denied")]))).
Proof.
  intros Hu. cbv zeta. unfold requireOwnershipOrRole. rewrite Hu. split.
  - intros Habs. apply truthy_absent in Habs. by rewrite Habs.
  - intros v Hv Hne.
    assert (Js.truthy (params req !! paramName) = true) as ->.
    { apply truthy_present. by exists v. }
    rewrite Hv. simpl negb. cbv iota. split.
    + intros Hok.
      assert (bool_decide (Some (ObjectId_toString (_id u)) = Some v)
              || hasRequiredRole u required = true) as ->; [|done].
      apply orb_true_iff. destruct Hok as [<- | Hrole].
      * left. by apply bool_decide_eq_true.
      * right. by apply hasRequiredRole_spec.
    + intros Hid Hrole.
      assert (bool_decide (Some (ObjectId_toString (_id u)) = Some v)
              || hasRequiredRole u required = false) as ->; [|done].
      apply orb_false_iff. split.
      * apply bool_decide_eq_false. congruence.
      * apply not_true_is_false. by rewrite hasRequiredRole_spec.
Qed.

Lemma requireUser_anonymous (req : Request) :
  user req = None ->
  requireUser req =
    ([log Warn ("Unauthenticated access attempt to "
                +:+ method req +:+ " " +:+ path req)],
     deny 401 "Authentication required").
Proof.
  intros Hu. unfold requireUser. rewrite Hu.
  by destruct (negb (isAuthenticated req)).
Qed.

(** C2. On a request that carries no identity, a route whose handlers
    before [requireUser] all pass the request on is answered by
    [requireUser] with 401 "Authentication required"; the handlers
    invoked are exactly those up to and including [requireUser], and the
    run is the one of the route cut off after it, whatever gates
    follow. *)
Theorem unauthenticated_short_circuit
    (req : Request) (before after : list (string * Handler)) :
  user req = None ->
  Forall (fun h => (h.2 req).2 = Next) before ->
  let run := dispatch (before ++ ("requireUser", requireUser) :: after) req in
  response run = Some (401, VObj [("success", VBool false);
                                  ("message", VStr "Authentication required")])
  /\ invoked run = map fst before ++ ["requireUser"]
  /\ run = dispatch (before ++ [("requireUser", requireUser)]) req.
Proof.
  intros Hu Hpass. cbv zeta.
  induction Hpass as [|[name h] before Hh Hpass IH]; simpl.
  - rewrite (requireUser_anonymous req Hu). unfold deny. simpl. by repeat split.
  - simpl in Hh. destruct (h req) as [entries outcome]. simpl in Hh. subst outcome.
    destruct IH as (IH1 & IH2 & IH3). simpl.
    split; [done | split; [by rewrite IH2 | by rewrite IH3]].
Qed.

End Gates.

(** ** The user model *)

Section UserJSON.
Import Express UserModel.

Lemma toJSON_transform_lookup (ret out : gmap string jsval) (k : string) :
  toJSON_transform ret = Some out ->
  out !! k =
    if decide (k = "googleRefreshToken" \/ k = "googleAccessToken"
               \/ k = "__v" \/ k = "_id") then None
    else if decide (k = "id") then VStr <$> (ret !! "_id" ≫= valToString)
    else ret !! k.
Proof.
  unfold toJSON_transform. intros H.
  destruct (ret !! "_id") as [v|] eqn:Hid; [|done]. simpl in *.
  destruct (valToString v) as [s|] eqn:Hs; [|done]. simpl in *.
  injection H as <-.
  rewrite !lookup_delete, lookup_insert.
  repeat case_decide; try done; naive_solver.
Qed.

Lemma toObject_lookup (a b : IUser) (version : Z) (k : string) :
  Spec.sameButTokens a b -> ~ Spec.tokenKey k ->
  toObject a version !! k = toObject b version !! k.
Proof.
  unfold Spec.sameButTokens, Spec.tokenKey.
  intros (E1 & E2 & E3 & E4 & E5 & E6 & E7) Hk.
  unfold toObject. rewrite E1, E2, E3, E4, E5, E6, E7.
  destruct (googleAccessToken a), (googleAccessToken b),
    (googleRefreshToken a), (googleRefreshToken b);
    repeat (rewrite (lookup_insert_ne _ "googleAccessToken") by naive_solver);
    repeat (rewrite (lookup_insert_ne _ "googleRefreshToken") by naive_solver);
    repeat (rewrite (lookup_insert_ne _ "googleAccessToken") by naive_solver);
    done.
Qed.

(** C10. The [toJSON] transform does not depend on the Google tokens:
    two plain objects that agree on every key but [googleAccessToken] and
    [googleRefreshToken] are transformed alike, and so are two user
    documents that agree on every field but the tokens.  A transformed
    object has none of the keys [googleAccessToken], [googleRefreshToken],
    [_id] and [__v], and its [id] is the string form of the [_id] it was
    built from; the transform of a user document always succeeds. *)
Theorem toJSON_hides_tokens :
  (forall ret1 ret2 : gmap string jsval,
      (forall k, ~ Spec.tokenKey k -> ret1 !! k = ret2 !! k) ->
      toJSON_transform ret1 = toJSON_transform ret2)
  /\ (forall (a b : IUser) (version : Z),
        Spec.sameButTokens a b ->
        toJSON_transform (toObject a version) = toJSON_transform (toObject b version))
  /\ (forall (ret out : gmap string jsval),
        toJSON_transform ret = Some out ->
        out !! "googleAccessToken" = None /\ out !! "googleRefreshToken" = None
        /\ out !! "_id" = None /\ out !! "__v" = None
        /\ exists v s, ret !! "_id" = Some v /\ valToString v = Some s
                       /\ out !! "id" = Some (VStr s))
  /\ (forall (a : IUser) (version : Z),
        exists out, toJSON_transform (toObject a version) = Some out
                    /\ out !! "id" = Some (VStr (ObjectId_toString (_id a)))).
Proof.
  assert (forall ret1 ret2 : gmap string jsval,
      (forall k, ~ Spec.tokenKey k -> ret1 !! k = ret2 !! k) ->
      toJSON_transform ret1 = toJSON_transform ret2) as Hmaps.
  { intros ret1 ret2 Hagree.
    assert (ret1 !! "_id" = ret2 !! "_id") as Hid.
    { apply Hagree. unfold Spec.tokenKey. intros [?|?]; discriminate. }
    destruct (toJSON_transform ret1) as [out1|] eqn:H1,
             (toJSON_transform ret2) as [out2|] eqn:H2.
    - f_equal. apply map_eq. intros k.
      rewrite (toJSON_transform_lookup _ _ k H1), (toJSON_transform_lookup _ _ k H2).
      rewrite Hid. repeat case_decide; try done.
      apply Hagree. unfold Spec.tokenKey. naive_solver.
    - exfalso. unfold toJSON_transform in H1, H2. rewrite Hid in H1.
      destruct (ret2 !! "_id") as [v|]; [|done]. simpl in *.
      destruct (valToString v); done.
    - exfalso. unfold toJSON_transform in H1, H2. rewrite Hid in H1.
      destruct (ret2 !! "_id") as [v|]; [|done]. simpl in *.
      destruct (valToString v); done.
    - done. }
  split; [exact Hmaps|]. split; [|split].
  - intros a b version Hab. apply Hmaps. intros k Hk. by apply toObject_lookup.
  - intros ret out H.
    rewrite !(toJSON_transform_lookup _ _ _ H).
    repeat (split; [by repeat case_decide; naive_solver|]).
    unfold toJSON_transform in H.
    destruct (ret !! "_id") as [v|] eqn:Hid; [|done]. simpl in *.
    destruct (valToString v) as [s|] eqn:Hs; [|done].
    exists v, s. by repeat split.
  - intros a version.
    assert (toObject a version !! "_id" = Some (VOid (hex (_id a)))) as Hid.
    { unfold toObject.
      destruct (googleAccessToken a), (googleRefreshToken a);
        repeat (rewrite lookup_insert_ne by done); by rewrite lookup_insert_eq. }
    destruct (toJSON_transform (toObject a version)) as [out|] eqn:H.
    + exists out. split; [done|].
      rewrite (toJSON_transform_lookup _ _ _ H), Hid. simpl.
      repeat case_decide; naive_solver.
    + unfold toJSON_transform in H. by rewrite Hid in H.
Qed.

End UserJSON.

(** ** Error classification *)

Section Errors.
Import Express UserModel Middleware GmailService EmailController.

Lemma authExpired_spec (m : string) :
  authExpired m = true
  <-> Spec.contains "invalid_grant" m \/ Spec.contains "Token" m.
Proof. unfold authExpired. by rewrite orb_true_iff, !includes_spec. Qed.

Lemma authExpired_not (m : string) :
  authExpired m = false
  <-> ~ Spec.contains "invalid_grant" m /\ ~ Spec.contains "Token" m.
Proof.
  unfold authExpired. rewrite orb_false_iff, <- !includes_spec.
  by rewrite !not_true_iff_false.
Qed.

(** The prefixes the service puts in front of a remote error hold none
    of the signals the controller looks for, nor the start of one. *)
Lemma authExpired_wrapped_emails (e : string) :
  authExpired ("Failed to fetch emails: " +:+ e) = authExpired e.
Proof. reflexivity. Qed.

Lemma authExpired_wrapped_email (e : string) :
  authExpired ("Failed to fetch email: " +:+ e) = authExpired e.
Proof. reflexivity. Qed.

Lemma notFound_wrapped_email (e : string) :
  Js.includes "Not Found" ("Failed to fetch email: " +:+ e) || Js.includes "404" ("Failed to fetch email: " +:+ e)
  = Js.includes "Not Found" e || Js.includes "404" e.
Proof. reflexivity. Qed.

(** What the service throws when the remote list call rejects. *)
Lemma getEmails_rejected (rt : Runtime) (api : GmailApi) (u : IUser)
    (filters : EmailFilters.t) (e : string) :
  (forall auth q n, messages_list api auth q n = inl e) ->
  (GmailService.getEmails rt api u filters).2 = inl ("Failed to fetch emails: " +:+ e).
Proof.
  intros Hrej. unfold GmailService.getEmails, try_catch, bind, say, await, throw.
  by rewrite Hrej.
Qed.

Lemma getEmailById_rejected (rt : Runtime) (api : GmailApi) (u : IUser)
    (emailId e : string) :
  (forall auth, messages_get api auth emailId = inl e) ->
  (GmailService.getEmailById rt api u emailId).2 = inl ("Failed to fetch email: " +:+ e).
Proof.
  intros Hrej. unfold GmailService.getEmailById, try_catch, bind, say, await, throw.
  by rewrite Hrej.
Qed.

Lemma getEmails_thrown service req u filters entries m :
  user req = Some u -> readFilters (query req) = inr filters ->
  service u filters = (entries, inl m) ->
  (EmailController.getEmails service req).2 =
    if authExpired m then Send 401 authExpiredBody
    else Send 500 (VObj [("error", VStr "Failed to fetch emails"); ("message", VStr m)]).
Proof.
  intros Hu Hf Hs. unfold EmailController.getEmails. by rewrite Hu, Hf, Hs.
Qed.

Lemma getEmailById_thrown service req u emailId entries m :
  user req = Some u -> params req !! "id" = Some emailId -> emailId <> "" ->
  service u emailId = (entries, inl m) ->
  (EmailController.getEmailById service req).2 =
    if authExpired m then Send 401 authExpiredBody
    else if Js.includes "Not Found" m || Js.includes "404" m
    then Send 404 (VObj [("error", VStr "Email not found"); ("message", VStr m)])
    else Send 500 (VObj [("error", VStr "Failed to fetch email"); ("message", VStr m)]).
Proof.
  intros Hu Hid Hne Hs. unfold EmailController.getEmailById. rewrite Hu, Hid.
  destruct emailId; [done|]. simpl. by rewrite Hs.
Qed.

(** C3. An error thrown by the mailbox fetch whose message contains
    "invalid_grant" or "Token" is answered, by the list endpoint and by
    the get-by-id endpoint alike, with 401 and the body
    {error: "Google authentication expired. Please re-authenticate.",
     code: "AUTH_EXPIRED"}; an error without either substring is not (the
    list endpoint answers 500, the get-by-id endpoint 404 or 500).  The
    same holds end to end for the message of a remote error, "invalid_grant"
    in particular: the prefix the service puts in front of it neither hides
    nor adds a signal. *)
Theorem auth_expired_classification :
  let expired :=
    Send 401 (VObj [("error", VStr "Google authentication expired. Please re-authenticate.");
                    ("code", VStr "AUTH_EXPIRED")]) in
  let signal m := Spec.contains "invalid_grant" m \/ Spec.contains "Token" m in
  (forall service req u filters entries m,
      user req = Some u -> readFilters (query req) = inr filters ->
      service u filters = (entries, inl m) ->
      (signal m -> (EmailController.getEmails service req).2 = expired)
      /\ (~ signal m -> exists body,
            (EmailController.getEmails service req).2 = Send 500 body))
  /\ (forall service req u emailId entries m,
        user req = Some u -> params req !! "id" = Some emailId -> emailId <> "" ->
        service u emailId = (entries, inl m) ->
        (signal m -> (EmailController.getEmailById service req).2 = expired)
        /\ (~ signal m -> exists status body,
              (EmailController.getEmailById service req).2 = Send status body
              /\ (status = 404 \/ status = 500)))
  /\ (forall rt api req u filters e,
        user req = Some u -> readFilters (query req) = inr filters ->
        (forall auth q n, messages_list api auth q n = inl e) ->
        (signal e ->
           (EmailController.getEmails (GmailService.getEmails rt api) req).2 = expired)
        /\ (~ signal e -> exists body,
              (EmailController.getEmails (GmailService.getEmails rt api) req).2
              = Send 500 body))
  /\ (forall rt api req u emailId e,
        user req = Some u -> params req !! "id" = Some emailId -> emailId <> "" ->
        (forall auth, messages_get api auth emailId = inl e) ->
        (signal e ->
           (EmailController.getEmailById (GmailService.getEmailById rt api) req).2 = expired)
        /\ (~ signal e -> exists status body,
              (EmailController.getEmailById (GmailService.getEmailById rt api) req).2
              = Send status body /\ (status = 404 \/ status = 500))).
Proof.
  cbv zeta.
  assert (forall service req u filters entries m,
      user req = Some u -> readFilters (query req) = inr filters ->
      service u filters = (entries, inl m) ->
      (Spec.contains "invalid_grant" m \/ Spec.contains "Token" m ->
         (EmailController.getEmails service req).2 = Send 401 authExpiredBody)
      /\ (~ (Spec.contains "invalid_grant" m \/ Spec.contains "Token" m) ->
          exists body, (EmailController.getEmails service req).2 = Send 500 body))
    as Hlist.
  { intros service req u filters entries m Hu Hf Hs.
    rewrite (getEmails_thrown _ _ _ _ _ _ Hu Hf Hs). split.
    - intros Hsig. apply authExpired_spec in Hsig. by rewrite Hsig.
    - intros Hsig. rewrite <- authExpired_spec in Hsig.
      apply not_true_is_false in Hsig. rewrite Hsig. eauto. }
  assert (forall service req u emailId entries m,
      user req = Some u -> params req !! "id" = Some emailId -> emailId <> "" ->
      service u emailId = (entries, inl m) ->
      (Spec.contains "invalid_grant" m \/ Spec.contains "Token" m ->
         (EmailController.getEmailById service req).2 = Send 401 authExpiredBody)
      /\ (~ (Spec.contains "invalid_grant" m \/ Spec.contains "Token" m) ->
          exists status body,
            (EmailController.getEmailById service req).2 = Send status body
            /\ (status = 404 \/ status = 500)))
    as Hget.
  { intros service req u emailId entries m Hu Hid Hne Hs.
    rewrite (getEmailById_thrown _ _ _ _ _ _ Hu Hid Hne Hs). split.
    - intros Hsig. apply authExpired_spec in Hsig. by rewrite Hsig.
    - intros Hsig. rewrite <- authExpired_spec in Hsig.
      apply not_true_is_false in Hsig. rewrite Hsig.
      destruct (Js.includes "Not Found" m || Js.includes "404" m); eauto. }
  split; [exact Hlist|]. split; [exact Hget|]. split.
  - intros rt api req u filters e Hu Hf Hrej.
    pose proof (getEmails_rejected rt api u filters e Hrej) as Hthrown.
    destruct (GmailService.getEmails rt api u filters) as [entries r] eqn:Hs.
    simpl in Hthrown. subst r.
    destruct (Hlist _ req u filters entries _ Hu Hf Hs) as [Hyes Hno].
    rewrite <- !authExpired_spec, authExpired_wrapped_emails, !authExpired_spec in *.
    done.
  - intros rt api req u emailId e Hu Hid Hne Hrej.
    pose proof (getEmailById_rejected rt api u emailId e Hrej) as Hthrown.
    destruct (GmailService.getEmailById rt api u emailId) as [entries r] eqn:Hs.
    simpl in Hthrown. subst r.
    destruct (Hget _ req u emailId entries _ Hu Hid Hne Hs) as [Hyes Hno].
    rewrite <- !authExpired_spec, authExpired_wrapped_email, !authExpired_spec in *.
    done.
Qed.

End Errors.

(** ** The get-by-id endpoint on a missing message *)

Section NotFound.
Import Express UserModel Middleware GmailService EmailController Examples.

(** C5, as stated, fails.  The remote lookup of message 999 rejects with
    "Not Found"; the endpoint answers 404, but the [message] of the body
    is the service's error message, not the remote one. *)
Lemma not_found_message_is_wrapped :
  let run :=
    dispatch (emailByIdRoute openLimiter runtime (rejecting "Not Found"))
             (request "GET" "/999" [("id", "999")] [] (Some alice)) in
  response run
  = Some (404, VObj [("error", VStr "Email not found");
                     ("message", VStr "Failed to fetch email: Not Found")])
  /\ response run
     <> Some (404, VObj [("error", VStr "Email not found");
                         ("message", VStr "Not Found")]).
Proof. split; [vm_compute; reflexivity | vm_compute; discriminate]. Qed.

(** C5, amended.  When the remote lookup rejects with a message that
    contains "Not Found" or "404" and neither "invalid_grant" nor
    "Token", the endpoint answers 404 with the body
    {error: "Email not found", message: M}, where M is the message of the
    error the service throws: "Failed to fetch email: " followed by the
    remote message.  (M is the bare "Not Found" only for a service that
    throws that very message.) *)
Theorem not_found_classification :
  (forall rt api req u emailId e,
      user req = Some u -> params req !! "id" = Some emailId -> emailId <> "" ->
      (forall auth, messages_get api auth emailId = inl e) ->
      Spec.contains "Not Found" e \/ Spec.contains "404" e ->
      ~ Spec.contains "invalid_grant" e -> ~ Spec.contains "Token" e ->
      (EmailController.getEmailById (GmailService.getEmailById rt api) req).2
      = Send 404 (VObj [("error", VStr "Email not found");
                        ("message", VStr ("Failed to fetch email: " +:+ e))]))
  /\ (forall service req u emailId entries m,
        user req = Some u -> params req !! "id" = Some emailId -> emailId <> "" ->
        service u emailId = (entries, inl m) ->
        Spec.contains "Not Found" m \/ Spec.contains "404" m ->
        ~ Spec.contains "invalid_grant" m -> ~ Spec.contains "Token" m ->
        (EmailController.getEmailById service req).2
        = Send 404 (VObj [("error", VStr "Email not found"); ("message", VStr m)])).
Proof.
  assert (forall service req u emailId entries m,
        user req = Some u -> params req !! "id" = Some emailId -> emailId <> "" ->
        service u emailId = (entries, inl m) ->
        Spec.contains "Not Found" m \/ Spec.contains "404" m ->
        ~ Spec.contains "invalid_grant" m -> ~ Spec.contains "Token" m ->
        (EmailController.getEmailById service req).2
        = Send 404 (VObj [("error", VStr "Email not found"); ("message", VStr m)]))
    as Hcontroller.
  { intros service req u emailId entries m Hu Hid Hne Hs Hnf Hg Ht.
    rewrite (getEmailById_thrown _ _ _ _ _ _ Hu Hid Hne Hs).
    assert (authExpired m = false) as -> by by apply authExpired_not.
    assert (Js.includes "Not Found" m || Js.includes "404" m = true) as ->; [|done].
    by rewrite orb_true_iff, !includes_spec. }
  split; [|exact Hcontroller].
  intros rt api req u emailId e Hu Hid Hne Hrej Hnf Hg Ht.
  pose proof (getEmailById_rejected rt api u emailId e Hrej) as Hthrown.
  destruct (GmailService.getEmailById rt api u emailId) as [entries r] eqn:Hs.
  simpl in Hthrown. subst r.
  apply (Hcontroller _ req u emailId entries _ Hu Hid Hne Hs).
  - rewrite <- !includes_spec, <- orb_true_iff, notFound_wrapped_email.
    by rewrite orb_true_iff, !includes_spec.
  - pose proof (authExpired_wrapped_email e) as Hw.
    assert (authExpired e = false) as He by by apply authExpired_not.
    rewrite He in Hw. by apply authExpired_not in Hw as [? ?].
  - pose proof (authExpired_wrapped_email e) as Hw.
    assert (authExpired e = false) as He by by apply authExpired_not.
    rewrite He in Hw. by apply authExpired_not in Hw as [? ?].
Qed.

End NotFound.

(** ** Body extraction *)

Section BodyExtraction.
Import Express GmailService Examples.

Variable decode : string -> string.

Lemma extractBody_scan (payload : Part.t) :
  extractBody decode payload =
    if Js.truthy (bodyData payload) then decode (default "" (bodyData payload))
    else match Part.parts payload with
         | Some ps => scan decode ps ""
         | None => ""
         end.
Proof.
  destruct payload as [mime hs b ps]. unfold bodyData. simpl.
  destruct (Js.truthy (b ≫= Body.data)); [done|].
  destruct ps as [ps|]; [|done].
  match goal with
  | |- ?loop ps _ = _ =>
      assert (forall body, loop ps body = scan decode ps body) as Hloop
  end; [|apply Hloop].
  induction ps as [|part rest IH]; intros body; [done|].
  simpl. by rewrite !IH.
Qed.

Lemma scan_first_plain (before after : list Part.t) (part : Part.t) (d body : string) :
  Part.mimeType part = Some "text/plain" ->
  bodyData part = Some d -> d <> "" ->
  Forall (fun c => ~ Spec.plainPart c
                   /\ (Part.parts c = None \/ extractBody decode c = "")) before ->
  scan decode (before ++ part :: after) body = decode d.
Proof.
  intros Hmime Hdata Hne Hbefore. revert body.
  induction Hbefore as [|c before [Hnp Hc] _ IH]; intros body; simpl.
  - unfold isMime. rewrite Hmime, Hdata.
    rewrite bool_decide_eq_true_2 by done. by destruct d.
  - assert (isMime c "text/plain" && Js.truthy (bodyData c) = false) as ->.
    { apply not_true_is_false. rewrite andb_true_iff, truthy_present.
      unfold isMime. rewrite bool_decide_eq_true. exact Hnp. }
    destruct (isMime c "text/html" && Js.truthy (bodyData c) && negb (Js.nonempty body));
      [apply IH|].
    destruct (Part.parts c) as [children|] eqn:Hparts; [|apply IH].
    destruct Hc as [Hc | Hc]; [done|]. rewrite Hc. apply IH.
Qed.

Lemma scan_first_nested (before after : list Part.t) (part : Part.t) (body : string) :
  Spec.absent (bodyData part) -> is_Some (Part.parts part) ->
  extractBody decode part <> "" ->
  Forall (Spec.passedOver decode) before ->
  scan decode (before ++ part :: after) body = extractBody decode part.
Proof.
  intros Habs [children Hchildren] Hne Hbefore. revert body.
  induction Hbefore as [|c before [Hnp Hc] _ IH]; intros body; simpl.
  - apply truthy_absent in Habs. rewrite Habs, !andb_false_r, Hchildren.
    by destruct (extractBody decode part).
  - assert (isMime c "text/plain" && Js.truthy (bodyData c) = false) as ->.
    { apply not_true_is_false. rewrite andb_true_iff, truthy_present.
      unfold isMime. rewrite bool_decide_eq_true. exact Hnp. }
    destruct (isMime c "text/html" && Js.truthy (bodyData c) && negb (Js.nonempty body));
      [apply IH|].
    destruct (Part.parts c) as [children'|] eqn:Hparts; [|apply IH].
    destruct Hc as [Hc | Hc]; [done|]. rewrite Hc. apply IH.
Qed.

Lemma firstPlain_parts (node : Part.t) (d : string) :
  Spec.firstPlain decode node d -> is_Some (Part.parts node).
Proof. intros []; by eexists. Qed.

End BodyExtraction.

Section BodyExtractionClaims.
Import Express GmailService Examples.

(** C6, as stated, fails.  The tree below holds a [text/plain] part with
    data, yet the body extracted is the html of the nested part that
    precedes it: a nested part that yields text ends the scan. *)
Lemma nested_html_beats_later_plain :
  let tree := multipart [multipart [htmlLeaf]; plainLeaf] in
  Spec.plainData tree = ["UGxhaW4gdGV4dCBib2R5"]
  /\ Base64.decode "UGxhaW4gdGV4dCBib2R5" = "Plain text body"
  /\ extractBody Base64.decode tree = "<p>HTML body</p>"
  /\ ~ (forall decode t, Spec.plainData t <> [] ->
          extractBody decode t ∈ map decode (Spec.plainData t)).
Proof.
  cbv zeta. split; [reflexivity|]. split; [reflexivity|]. split; [reflexivity|].
  intros Hclaim.
  specialize (Hclaim Base64.decode (multipart [multipart [htmlLeaf]; plainLeaf])).
  vm_compute in Hclaim.
  specialize (Hclaim ltac:(discriminate)).
  apply list_elem_of_singleton in Hclaim. discriminate.
Qed.

(** C6, amended.  Inline data of a node is returned outright.  On a
    node without inline data the children are scanned in order, and while
    the children met are passed over (none a [text/plain] part with data,
    none with a non-empty extraction of its own), the scan ends at the
    first child that is a [text/plain] part with data, with its text,
    whatever [text/html] siblings come before or after it, and at the
    first child without data of its own whose own extraction is not
    empty, with that extraction, plain text or html.  So plain text that
    the scan gets to wins at any depth over the html met on the way,
    provided it does not decode to the empty string; what lies after a
    nested part with a non-empty extraction is never looked at. *)
Theorem plain_text_preference (decode : string -> string) :
  (forall m h b ps d,
     b ≫= Body.data = Some d -> d <> "" ->
     extractBody decode (Part.Make m h b ps) = decode d)
  /\ (forall m h b before c after,
        Spec.absent (b ≫= Body.data) ->
        Forall (Spec.passedOver decode) before ->
        let node := Part.Make m h b (Some (before ++ c :: after)) in
        (forall d, Part.mimeType c = Some "text/plain" ->
                   bodyData c = Some d -> d <> "" ->
                   extractBody decode node = decode d)
        /\ (Spec.absent (bodyData c) -> is_Some (Part.parts c) ->
            extractBody decode c <> "" ->
            extractBody decode node = extractBody decode c))
  /\ (forall node d,
        Spec.firstPlain decode node d -> decode d <> "" ->
        extractBody decode node = decode d).
Proof.
  assert (forall m h b before c after,
            Spec.absent (b ≫= Body.data) ->
            extractBody decode (Part.Make m h b (Some (before ++ c :: after)))
            = scan decode (before ++ c :: after) "") as Hnode.
  { intros m h b before c after Habs. rewrite extractBody_scan.
    unfold bodyData. cbn [Part.body Part.parts].
    apply truthy_absent in Habs. by rewrite Habs. }
  split; [|split].
  - intros m h b ps d Hd Hne. rewrite extractBody_scan.
    unfold bodyData. cbn [Part.body]. rewrite Hd. by destruct d.
  - intros m h b before c after Habs Hbefore. cbv zeta. split.
    + intros d Hmime Hdata Hne. rewrite Hnode by done.
      by apply scan_first_plain.
    + intros Hc Hparts Hne. rewrite Hnode by done.
      by apply scan_first_nested.
  - intros node d Hfirst Hne.
    induction Hfirst as [m h b before c after d Habs Hbefore Hmime Hdata Hd
                        |m h b before c after d Habs Hbefore Hc Hfirst IH].
    + rewrite Hnode by done. by apply scan_first_plain.
    + specialize (IH Hne). rewrite Hnode by done. rewrite <- IH.
      apply scan_first_nested; [done | by eapply firstPlain_parts | by rewrite IH | done].
Qed.

End BodyExtractionClaims.

(** ** Query synthesis *)

Section Query.
Import Express GmailService Examples.

Variable localTZA : Z -> Z.

(** The arithmetic of the four [case]s is the cutoff of the
    specification. *)
Lemma afterDate_cutoff (now n : Z) (r : TimeRange) :
  match r with
  | hours => now - n * 60 * 60 * 1000
  | days => now - n * 24 * 60 * 60 * 1000
  | weeks => now - n * 7 * 24 * 60 * 60 * 1000
  | months => now - n * 30 * 24 * 60 * 60 * 1000
  end = Spec.cutoff now r n.
Proof.
  unfold Spec.cutoff, Spec.unitSeconds, Spec.daySeconds, Spec.hourSeconds.
  destruct r; lia.
Qed.

(** The clause the code prints for [new Date(t)], valid or not. *)
Lemma after_clause (t : Z) :
  let d := JsDate.fromTime t in
  "after:" +:+ Js.toString (JsDate.getFullYear localTZA d) +:+ "/"
    +:+ Js.padStart 2 "0" (Js.toString (Z.add 1 <$> JsDate.getMonth localTZA d))
    +:+ "/" +:+ Js.padStart 2 "0" (Js.toString (JsDate.getDate localTZA d))
  = "after:" +:+ Spec.printedDate localTZA t.
Proof.
  cbv zeta. unfold Spec.printedDate, JsDate.fromTime.
  destruct (Z.abs t <=? JsDate.maxTime); [|reflexivity].
  unfold JsDate.getFullYear, JsDate.getMonth, JsDate.getDate.
  cbn [mbind option_bind].
  generalize (JsDate.localDate localTZA t). intros [[y m] d]. simpl.
  by replace (1 + (m - 1)) with m by lia.
Qed.

(** The query of the code, for a count that is not zero.  Integer
    arithmetic is exact here; the doubles of the code give the same
    Date for every clock reading a Date can hold, since a product that
    is rounded is at least 2^59 ms, which puts the cutoff outside the
    range of a Date either way. *)
Lemma buildQuery_synthesized (now : Z) (f : EmailFilters.t) :
  (forall n, EmailFilters.timeValue f = Some n -> n <> 0) ->
  buildQuery localTZA now f = Spec.synthesized localTZA now f.
Proof.
  intros Hpos.
  unfold buildQuery, Spec.synthesized, Spec.readClause, Spec.afterClause, Js.join.
  destruct f as [rd tr tv mx]. simpl in *. f_equal.
  destruct tr as [r|], tv as [n|];
    [|by destruct rd as [[|]|]..].
  specialize (Hpos n eq_refl).
  rewrite (proj2 (Z.eqb_neq n 0)) by done. cbn [negb].
  assert (match r with
          | hours => JsDate.fromTime (now - n * 60 * 60 * 1000)
          | days => JsDate.fromTime (now - n * 24 * 60 * 60 * 1000)
          | weeks => JsDate.fromTime (now - n * 7 * 24 * 60 * 60 * 1000)
          | months => JsDate.fromTime (now - n * 30 * 24 * 60 * 60 * 1000)
          end = JsDate.fromTime (Spec.cutoff now r n)) as ->.
  { rewrite <- afterDate_cutoff. by destruct r. }
  rewrite after_clause. by destruct rd as [[|]|].
Qed.

(** The month and the day of a calendar date are in range, so that the
    date prints with a two-digit month and a two-digit day. *)
Lemma civil_month_day (dayNumber : Z) :
  1 <= (JsDate.civil dayNumber).1.2 <= 12 /\ 1 <= (JsDate.civil dayNumber).2 <= 31.
Proof.
  clear localTZA.
  unfold JsDate.civil. cbv zeta. simpl fst. simpl snd.
  set (z := dayNumber + 719468).
  set (era := z / 146097).
  set (doe := z - era * 146097).
  assert (0 <= doe < 146097) as Hdoe.
  { subst doe era. pose proof (Z.div_mod z 146097 ltac:(lia)).
    pose proof (Z.mod_pos_bound z 146097 ltac:(lia)). lia. }
  clearbody doe. clear z era.
  set (yoe := (doe - doe / 1460 + doe / 36524 - doe / 146096) / 365).
  assert (0 <= yoe <= 399) as Hyoe by (subst yoe; Z.div_mod_to_equations; lia).
  set (doy := doe - (365 * yoe + yoe / 4 - yoe / 100)).
  assert (0 <= doy <= 365) as Hdoy by (subst doy yoe; Z.div_mod_to_equations; lia).
  clearbody doy.
  set (mp := (5 * doy + 2) / 153).
  assert (0 <= mp <= 11) as Hmp by (subst mp; Z.div_mod_to_equations; lia).
  split.
  - destruct (mp <? 10) eqn:E; [apply Z.ltb_lt in E | apply Z.ltb_ge in E]; lia.
  - subst mp. Z.div_mod_to_equations. lia.
Qed.

Lemma padStart_two_digits (n : Z) :
  1 <= n <= 31 -> String.length (Js.padStart 2 "0" (pretty n)) = 2%nat.
Proof.
  intros Hn.
  assert (forallb (fun k => Nat.eqb (String.length (Js.padStart 2 "0" (pretty (Z.of_nat k)))) 2)
                  (seq 1 31) = true) as Hall by (vm_compute; reflexivity).
  rewrite forallb_forall in Hall.
  specialize (Hall (Z.to_nat n)). rewrite Z2Nat.id in Hall by lia.
  apply Nat.eqb_eq, Hall, in_seq. lia.
Qed.

Lemma padStart_four_digits (y : Z) :
  1000 <= y <= 9999 -> Js.padStart 4 "0" (pretty y) = pretty y.
Proof.
  intros Hy.
  assert (forallb (fun k => String.eqb (Js.padStart 4 "0" (pretty k)) (pretty k))
                  (seqZ 1000 9000) = true) as Hall by (vm_compute; reflexivity).
  rewrite forallb_forall in Hall.
  apply String.eqb_eq, Hall, list_elem_of_In, elem_of_seqZ. lia.
Qed.

End Query.

Section QueryClaims.
Import Express GmailService Examples.

(** C7, as stated, fails.  The controller accepts a window of 4000000
    months; its cutoff lies before the earliest instant a Date can hold,
    and the query is [after:NaN/NaN/NaN].  For a window of 12500 months
    the cutoff falls in the year 997, which is printed with three digits
    and not as YYYY. *)
Lemma date_clause_is_not_always_a_calendar_date :
  EmailController.readFilters
    (list_to_map [("timeRange", "months"); ("timeValue", "4000000")])
  = inr (monthsBack 4000000)
  /\ Spec.FilterRecord (monthsBack 4000000)
  /\ buildQuery utc noon (monthsBack 4000000) = "after:NaN/NaN/NaN"
  /\ Spec.FilterRecord (monthsBack 12500)
  /\ buildQuery utc noon (monthsBack 12500) = "after:997/04/28"
  /\ Spec.query utc noon (monthsBack 12500) = "after:0997/04/28"
  /\ ~ (forall tz now f, Spec.FilterRecord f ->
          buildQuery tz now f = Spec.query tz now f).
Proof.
  assert (forall n, 0 < n -> Spec.FilterRecord (monthsBack n)) as Hrecord.
  { intros n Hn. split; [|split].
    - by intros ? [= <-].
    - split; intros _; by eexists.
    - intros ? [=]. }
  split; [reflexivity|]. split; [apply Hrecord; lia|].
  split; [by vm_compute|]. split; [apply Hrecord; lia|].
  split; [by vm_compute|]. split; [by vm_compute|].
  intros Hclaim.
  specialize (Hclaim utc noon (monthsBack 4000000) (Hrecord 4000000 ltac:(lia))).
  vm_compute in Hclaim. discriminate Hclaim.
Qed.

(** C7, amended.  For every Filter Record, clock reading and time zone
    the query is the space-joined list of the applicable clauses:
    [is:read] or [is:unread] after the read flag, nothing when it is
    unset, then, when unit and count are set, [after:] followed by the
    date as printed for the cutoff now - count x unit, an hour being
    3600 s, a day 24 h, a week 7 days and a month 30 days.  When the
    cutoff is an instant a Date can hold, the date printed is the local
    calendar date of the cutoff, with the year in decimal as it stands
    and a month from 1 to 12 and a day from 1 to 31 of two characters
    each, which is YYYY/MM/DD exactly for the years 1000 to 9999;
    otherwise it is NaN/NaN/NaN.  Without filters the query is empty.
    The query depends on the filter through the read flag, the unit and
    the count only, and on the time zone through the offset at the
    cutoff only. *)
Theorem query_synthesis (localTZA : Z -> Z) (now : Z) (f : EmailFilters.t) :
  Spec.FilterRecord f ->
  buildQuery localTZA now f = Spec.synthesized localTZA now f
  /\ (forall r n, EmailFilters.timeRange f = Some r -> EmailFilters.timeValue f = Some n ->
        let t := Spec.cutoff now r n in
        let ymd := JsDate.localDate localTZA t in
        (Z.abs t <= JsDate.maxTime ->
           Spec.afterClause localTZA now f
           = ["after:" +:+ pretty ymd.1.1 +:+ "/" +:+ Js.padStart 2 "0" (pretty ymd.1.2)
              +:+ "/" +:+ Js.padStart 2 "0" (pretty ymd.2)]
           /\ 1 <= ymd.1.2 <= 12 /\ 1 <= ymd.2 <= 31
           /\ String.length (Js.padStart 2 "0" (pretty ymd.1.2)) = 2%nat
           /\ String.length (Js.padStart 2 "0" (pretty ymd.2)) = 2%nat
           /\ (1000 <= ymd.1.1 <= 9999 ->
               buildQuery localTZA now f = Spec.query localTZA now f))
        /\ (JsDate.maxTime < Z.abs t ->
            Spec.afterClause localTZA now f = ["after:NaN/NaN/NaN"]))
  /\ (EmailFilters.isRead f = None -> EmailFilters.timeRange f = None ->
      buildQuery localTZA now f = "")
  /\ (forall localTZA' f',
        Spec.sameWindow f f' ->
        (forall r n, EmailFilters.timeRange f = Some r -> EmailFilters.timeValue f = Some n ->
           localTZA' (Spec.cutoff now r n) = localTZA (Spec.cutoff now r n)) ->
        buildQuery localTZA' now f' = buildQuery localTZA now f).
Proof.
  intros (Hpos & Hboth & _).
  assert (forall n, EmailFilters.timeValue f = Some n -> n <> 0) as Hnz.
  { intros n Hn. specialize (Hpos n Hn). lia. }
  pose proof (buildQuery_synthesized localTZA now f Hnz) as Hq.
  split; [exact Hq|]. split; [|split].
  - intros r n Hr Hn. cbv zeta. split.
    + intros Hvalid.
      assert (Spec.printedDate localTZA (Spec.cutoff now r n)
              = pretty (JsDate.localDate localTZA (Spec.cutoff now r n)).1.1 +:+ "/"
                +:+ Js.padStart 2 "0"
                      (pretty (JsDate.localDate localTZA (Spec.cutoff now r n)).1.2)
                +:+ "/"
                +:+ Js.padStart 2 "0"
                      (pretty (JsDate.localDate localTZA (Spec.cutoff now r n)).2))
        as Hprinted.
      { unfold Spec.printedDate. by rewrite (proj2 (Z.leb_le _ _) Hvalid). }
      split; [unfold Spec.afterClause; by rewrite Hr, Hn, Hprinted|].
      unfold JsDate.localDate in *.
      destruct (civil_month_day ((Spec.cutoff now r n + localTZA (Spec.cutoff now r n))
                                 / JsDate.msPerDay)) as [Hm Hd].
      split; [exact Hm|]. split; [exact Hd|].
      split; [apply padStart_two_digits; lia|].
      split; [apply padStart_two_digits; lia|].
      intros Hyear. rewrite Hq.
      unfold Spec.synthesized, Spec.query, Spec.afterClause, Spec.timeClause.
      rewrite Hr, Hn, Hprinted. unfold Spec.calendar, JsDate.localDate.
      by rewrite (padStart_four_digits _ Hyear).
    + intros Hinvalid. unfold Spec.afterClause, Spec.printedDate.
      by rewrite Hr, Hn, (proj2 (Z.leb_gt _ _) Hinvalid).
  - intros Hrd Htr. rewrite Hq.
    unfold Spec.synthesized, Spec.readClause, Spec.afterClause.
    by rewrite Hrd, Htr.
  - intros localTZA' f' (Erd & Etr & Etv) Hsame.
    assert (forall n, EmailFilters.timeValue f' = Some n -> n <> 0) as Hnz'.
    { intros n Hn. rewrite Etv in Hn. by apply Hnz. }
    rewrite Hq, (buildQuery_synthesized localTZA' now f' Hnz').
    unfold Spec.synthesized, Spec.readClause, Spec.afterClause.
    rewrite Erd, Etr, Etv.
    destruct (EmailFilters.timeRange f) as [r|]; [|done].
    destruct (EmailFilters.timeValue f) as [n|]; [|done].
    unfold Spec.printedDate, JsDate.localDate.
    by rewrite (Hsame r n eq_refl eq_refl).
Qed.

End QueryClaims.

(** ** Header extraction *)

Section Headers.
Import Express GmailService Examples.

Lemma or_empty_default (v : option string) : Js.or_empty v = default "" v.
Proof. by destruct v as [[|? ?]|]. Qed.

Lemma named_eqb (name : string) (h : Header.t) :
  String.eqb (Js.toLowerCase (Header.name h)) (Js.toLowerCase name) = true
  <-> Spec.named name h.
Proof. apply String.eqb_eq. Qed.

Lemma getHeader_first (headers : list Header.t) (name : string) (h : Header.t) :
  Spec.firstNamed name headers h ->
  getHeader headers name = default "" (Header.value h).
Proof.
  intros (before & after & -> & Hh & Hbefore).
  unfold getHeader. rewrite or_empty_default. f_equal.
  induction Hbefore as [|h' before Hh' _ IH]; simpl.
  - by rewrite (proj2 (named_eqb name h) Hh).
  - rewrite <- named_eqb in Hh'. apply not_true_is_false in Hh'. by rewrite Hh'.
Qed.

Lemma getHeader_none (headers : list Header.t) (name : string) :
  Spec.noneNamed name headers -> getHeader headers name = "".
Proof.
  intros Hnone. unfold getHeader.
  induction Hnone as [|h' hs Hh' _ IH]; simpl; [done|].
  rewrite <- named_eqb in Hh'. apply not_true_is_false in Hh'. by rewrite Hh'.
Qed.

(** C8, as stated, fails twice.  Without a To header the recipients are
    the one-element list holding the empty string, not the empty list;
    and an unparsable Date header yields an Invalid Date, not the current
    time. *)
Lemma absent_to_and_unparsable_date :
  let none := parseHeaders knownDates noon [] in
  let bad :=
    parseHeaders knownDates noon
      [{| Header.name := "Date"; Header.value := Some "not a date" |}] in
  to none = [""] /\ to none <> []
  /\ knownDates "not a date" = None
  /\ date bad = None /\ date bad <> Some noon.
Proof. cbv zeta. by repeat split. Qed.

(** C8, amended.  Names are matched without regard to letter case and the
    first match counts.  Subject and From are the header's value, the
    empty string when the header is absent or has no value.  To is the
    value of the To header split on commas, each entry trimmed; when the
    header is absent it is the list holding one empty string.  Date is
    what parsing the Date header's value gives, an Invalid Date when
    the value is unparsable; the current time is taken only when the
    header is absent or its value empty. *)
Theorem header_extraction
    (parseDate : string -> JsDate.Date) (now : Z) (headers : list Header.t) :
  let p := parseHeaders parseDate now headers in
  ((forall h, Spec.firstNamed "Subject" headers h ->
              subject p = default "" (Header.value h))
   /\ (Spec.noneNamed "Subject" headers -> subject p = ""))
  /\ ((forall h, Spec.firstNamed "From" headers h ->
                 from p = default "" (Header.value h))
      /\ (Spec.noneNamed "From" headers -> from p = ""))
  /\ ((forall h, Spec.firstNamed "To" headers h ->
                 to p = map Js.trim (Js.split "," (default "" (Header.value h))))
      /\ (Spec.noneNamed "To" headers -> to p = [""]))
  /\ ((forall h, Spec.firstNamed "Date" headers h ->
         let v := default "" (Header.value h) in
         (v <> "" -> date p = parseDate v
                     /\ (parseDate v = None -> date p = None))
         /\ (v = "" -> date p = Some now))
      /\ (Spec.noneNamed "Date" headers -> date p = Some now)).
Proof.
  cbv zeta. unfold parseHeaders. simpl.
  split; [|split; [|split]]; split.
  - intros h Hh. by apply getHeader_first.
  - intros Hn. by apply getHeader_none.
  - intros h Hh. by apply getHeader_first.
  - intros Hn. by apply getHeader_none.
  - intros h Hh. by rewrite (getHeader_first _ _ _ Hh).
  - intros Hn. by rewrite (getHeader_none _ _ Hn).
  - intros h Hh. rewrite (getHeader_first _ _ _ Hh).
    destruct (default "" (Header.value h)) as [|c v]; simpl.
    + split; [done | done].
    + split; [|done]. intros _. split; [done|]. by intros ->.
  - intros Hn. by rewrite (getHeader_none _ _ Hn).
Qed.

End Headers.

(** ** The filter parameters *)

Section Filters.
Import Express UserModel Middleware GmailService EmailController Examples.

Lemma rangeOf_nonempty (s : string) (r : TimeRange) : rangeOf s = Some r -> s <> "".
Proof. by intros H ->. Qed.

Ltac filters_cases :=
  unfold readFilters, mbind, early_return;
  repeat (case_match; simplify_eq/=); try done.

(** What an accepted parameter map leaves in the filter record. *)
Lemma readFilters_accepted (q : gmap string string) (f : EmailFilters.t) :
  readFilters q = inr f ->
  EmailFilters.isRead f = (fun v => String.eqb v "true") <$> q !! "isRead"
  /\ EmailFilters.timeRange f =
       (if Js.truthy (q !! "timeRange") then rangeOf (default "" (q !! "timeRange"))
        else None)
  /\ EmailFilters.timeValue f =
       (if Js.truthy (q !! "timeValue") then Js.parseInt (default "" (q !! "timeValue"))
        else None)
  /\ EmailFilters.maxResults f =
       (if Js.truthy (q !! "maxResults") then Js.parseInt (default "" (q !! "maxResults"))
        else None).
Proof. filters_cases; by intros [= <-]. Qed.

Lemma readFilters_cap (q : gmap string string) :
  Spec.capAccepted q ->
  (if Js.truthy (q !! "maxResults") then
     let maxResults := Js.parseInt (default "" (q !! "maxResults")) in
     Js.isNaN maxResults || Js.leb maxResults 0 || Js.gtb maxResults 500
   else false) = false.
Proof.
  intros [Habs | (s & n & Hs & Hn & Hle)].
  - apply truthy_absent in Habs. by rewrite Habs.
  - rewrite Hs. simpl default. cbv zeta. rewrite Hn.
    destruct (Js.truthy (Some s)); [|done]. simpl.
    apply orb_false_iff. split; [apply Z.leb_gt | apply Z.ltb_ge]; lia.
Qed.

Lemma range_without_value (q : gmap string string) (s : string) (r : TimeRange) :
  q !! "timeRange" = Some s -> rangeOf s = Some r -> Spec.absent (q !! "timeValue") ->
  exists body,
    readFilters q = inl body
    /\ (Spec.capAccepted q ->
        body = errorBody "timeValue is required when timeRange is specified").
Proof.
  intros Hs Hr Hv. apply truthy_absent in Hv.
  pose proof (rangeOf_nonempty _ _ Hr) as Hne.
  assert (Js.truthy (Some s) = true) as Ht by by destruct s.
  pose proof (readFilters_cap q) as Hcap. revert Hcap.
  unfold readFilters, mbind, early_return. rewrite Hs, Ht, Hv. simpl default. rewrite Hr.
  repeat (case_match; simplify_eq/=); intros Hcap; eexists; (split; [done|]);
    intros Hok; by specialize (Hcap Hok).
Qed.

Lemma value_without_range (q : gmap string string) (s : string) (n : Z) :
  q !! "timeValue" = Some s -> Js.parseInt s = Some n -> 0 < n ->
  Spec.absent (q !! "timeRange") ->
  exists body,
    readFilters q = inl body
    /\ (Spec.capAccepted q ->
        body = errorBody "timeRange is required when timeValue is specified").
Proof.
  intros Hs Hn Hpos Hr. apply truthy_absent in Hr.
  assert (Js.truthy (Some s) = true) as Ht by by destruct s.
  pose proof (readFilters_cap q) as Hcap. revert Hcap.
  unfold readFilters, mbind, early_return. rewrite Hs, Ht, Hr. simpl default.
  cbv zeta. rewrite Hn. cbn [Js.isNaN Js.leb orb].
  rewrite (proj2 (Z.leb_gt n 0)) by lia.
  repeat (case_match; simplify_eq/=); intros Hcap; try lia;
    eexists; (split; [done|]); intros Hok; by specialize (Hcap Hok).
Qed.

Lemma no_time_window (q : gmap string string) :
  Spec.absent (q !! "timeRange") -> Spec.absent (q !! "timeValue") ->
  (forall body, readFilters q = inl body ->
                body = errorBody "maxResults must be between 1 and 500")
  /\ (forall f, readFilters q = inr f ->
                EmailFilters.timeRange f = None /\ EmailFilters.timeValue f = None)
  /\ (Spec.capAccepted q -> exists f, readFilters q = inr f).
Proof.
  intros Hr Hv. apply truthy_absent in Hr, Hv.
  pose proof (readFilters_cap q) as Hcap. revert Hcap.
  unfold readFilters, mbind, early_return. rewrite Hr, Hv.
  repeat (case_match; simplify_eq/=); intros Hcap;
    (split; [by intros ? [= <-] | split; [by intros ? [= <-] |]]);
    intros Hok; specialize (Hcap Hok); by eauto.
Qed.

(** C4. A request whose [timeRange] is one of the four units while
    [timeValue] is absent is rejected with status 400, whatever the
    mailbox would have answered, and so is a request whose [timeValue] is
    a positive integer while [timeRange] is absent; the error reads
    "timeValue is required when timeRange is specified", respectively
    "timeRange is required when timeValue is specified", unless the
    request also carries a bad [maxResults], which is reported first.
    With both absent no time filter is set and the cross-field check
    lets the request through: it reaches the mailbox client with a filter
    that has neither unit nor count. *)
Theorem time_window_cross_field
    (service : IUser -> EmailFilters.t -> Svc (list EmailMessage.t))
    (req : Request) (u : IUser) :
  user req = Some u ->
  let q := query req in
  (forall s r, q !! "timeRange" = Some s -> rangeOf s = Some r ->
               Spec.absent (q !! "timeValue") ->
     exists body,
       EmailController.getEmails service req = ([], Send 400 body)
       /\ (Spec.capAccepted q ->
           body = VObj [("error",
                         VStr "timeValue is required when timeRange is specified")]))
  /\ (forall s n, q !! "timeValue" = Some s -> Js.parseInt s = Some n -> 0 < n ->
                  Spec.absent (q !! "timeRange") ->
        exists body,
          EmailController.getEmails service req = ([], Send 400 body)
          /\ (Spec.capAccepted q ->
              body = VObj [("error",
                            VStr "timeRange is required when timeValue is specified")]))
  /\ (Spec.absent (q !! "timeRange") -> Spec.absent (q !! "timeValue") ->
      Spec.capAccepted q ->
      exists f,
        readFilters q = inr f
        /\ EmailFilters.timeRange f = None /\ EmailFilters.timeValue f = None
        /\ forall entries emails, service u f = (entries, inr emails) ->
             exists body, (EmailController.getEmails service req).2 = Send 200 body).
Proof.
  intros Hu. cbv zeta. split; [|split].
  - intros s r Hs Hr Hv.
    destruct (range_without_value _ _ _ Hs Hr Hv) as (body & Hbody & Hmsg).
    exists body. split; [|exact Hmsg].
    unfold EmailController.getEmails. by rewrite Hu, Hbody.
  - intros s n Hs Hn Hpos Hr.
    destruct (value_without_range _ _ _ Hs Hn Hpos Hr) as (body & Hbody & Hmsg).
    exists body. split; [|exact Hmsg].
    unfold EmailController.getEmails. by rewrite Hu, Hbody.
  - intros Hr Hv Hcap.
    destruct (no_time_window _ Hr Hv) as (_ & Hnone & Hsome).
    destruct (Hsome Hcap) as [f Hf]. destruct (Hnone f Hf) as [Hfr Hfv].
    exists f. repeat split; try done.
    intros entries emails Hs. unfold EmailController.getEmails.
    rewrite Hu, Hf, Hs. eauto.
Qed.

(** C9, as stated, fails.  [isRead=yes] is not dropped: the filter
    record carries [isRead = false], and the query asks for unread
    messages. *)
Lemma unrecognised_isRead_is_false :
  let q : gmap string string := {[ "isRead" := "yes" ]} in
  let unread :=
    {| EmailFilters.isRead := Some false; EmailFilters.timeRange := None;
       EmailFilters.timeValue := None; EmailFilters.maxResults := None |} in
  q !! "isRead" = Some "yes"
  /\ readFilters q = inr unread
  /\ EmailFilters.isRead unread <> None
  /\ buildQuery utc noon unread = "is:unread".
Proof. cbv zeta. split; [done|]. split; [by vm_compute|]. by split. Qed.

(** C9, amended.  When [isRead] is present, the value "true" sets the
    flag to true and every other value, "false", "TRUE", "yes", "1" and
    the empty string included, sets it to false; the flag is unset only
    when the parameter is absent. *)
Theorem isRead_parameter (q : gmap string string) :
  (forall v, q !! "isRead" = Some v ->
     (forall f, readFilters q = inr f ->
        (v = "true" -> EmailFilters.isRead f = Some true)
        /\ (v <> "true" -> EmailFilters.isRead f = Some false))
     /\ (Spec.absent (q !! "timeRange") -> Spec.absent (q !! "timeValue") ->
         Spec.absent (q !! "maxResults") ->
         exists f, readFilters q = inr f))
  /\ (q !! "isRead" = None ->
      forall f, readFilters q = inr f -> EmailFilters.isRead f = None).
Proof.
  split.
  - intros v Hv. split.
    + intros f Hf. apply readFilters_accepted in Hf as (Hrd & _).
      rewrite Hrd, Hv. simpl. split.
      * by intros ->.
      * intros Hne. f_equal. apply not_true_is_false. by rewrite String.eqb_eq.
    + intros Hr Ht Hm.
      destruct (no_time_window _ Hr Ht) as (_ & _ & Hsome).
      apply Hsome. by left.
  - intros Hv f Hf. apply readFilters_accepted in Hf as (Hrd & _).
    by rewrite Hrd, Hv.
Qed.

End Filters.

(** ** The properties at work on the sample data *)

Section Witnesses.
Import Express UserModel Middleware GmailService EmailController Examples.

Lemma ownership_or_role_gate_witness :
  let gate := requireOwnershipOrRole "userId" [ADMIN] in
  let own := request "GET" "/api/users/64b7f0c2a1d3e4f5a6b7c8d9"
               [("userId", "64b7f0c2a1d3e4f5a6b7c8d9")] [] in
  (gate (own (Some alice))).2 = Next
  /\ (gate (own (Some root))).2 = Next
  /\ (gate (request "GET" "/api/users/64b7f0c2a1d3e4f5a6b7c8e0"
              [("userId", "64b7f0c2a1d3e4f5a6b7c8e0")] [] (Some alice))).2
     = Send 403 (VObj [("success", VBool false); ("message", VStr "Access denied")])
  /\ (gate (request "GET" "/api/users" [] [] (Some alice))).2
     = Send 400 (VObj [("success", VBool false); ("message", VStr "Invalid request")]).
Proof.
  cbv zeta. split; [|split; [|split]].
  - pose proof (ownership_or_role_gate "userId" [ADMIN]
      (request "GET" "/api/users/64b7f0c2a1d3e4f5a6b7c8d9"
         [("userId", "64b7f0c2a1d3e4f5a6b7c8d9")] [] (Some alice)) alice eq_refl)
      as [_ Hvalue].
    destruct (Hvalue "64b7f0c2a1d3e4f5a6b7c8d9" eq_refl ltac:(discriminate))
      as [Hallow _].
    apply Hallow. left. reflexivity.
  - pose proof (ownership_or_role_gate "userId" [ADMIN]
      (request "GET" "/api/users/64b7f0c2a1d3e4f5a6b7c8d9"
         [("userId", "64b7f0c2a1d3e4f5a6b7c8d9")] [] (Some root)) root eq_refl)
      as [_ Hvalue].
    destruct (Hvalue "64b7f0c2a1d3e4f5a6b7c8d9" eq_refl ltac:(discriminate))
      as [Hallow _].
    apply Hallow. right. exists ADMIN. split; simpl; set_solver.
  - pose proof (ownership_or_role_gate "userId" [ADMIN]
      (request "GET" "/api/users/64b7f0c2a1d3e4f5a6b7c8e0"
         [("userId", "64b7f0c2a1d3e4f5a6b7c8e0")] [] (Some alice)) alice eq_refl)
      as [_ Hvalue].
    destruct (Hvalue "64b7f0c2a1d3e4f5a6b7c8e0" eq_refl ltac:(discriminate))
      as [_ Hdeny].
    apply Hdeny; [discriminate|].
    intros (r & Hhave & Hneed). simpl in Hhave. set_solver.
  - pose proof (ownership_or_role_gate "userId" [ADMIN]
      (request "GET" "/api/users" [] [] (Some alice)) alice eq_refl)
      as [Hnone _].
    apply Hnone. left. reflexivity.
Defined.

Lemma unauthenticated_short_circuit_witness :
  let run :=
    dispatch (emailsRoute openLimiter runtime (rejecting "unreachable"))
             (request "GET" "/" [] [("isRead", "false")] None) in
  response run = Some (401, VObj [("success", VBool false);
                                  ("message", VStr "Authentication required")])
  /\ invoked run = ["apiRateLimiter"; "requireUser"].
Proof.
  cbv zeta.
  pose proof (unauthenticated_short_circuit
    (request "GET" "/" [] [("isRead", "false")] None)
    [("apiRateLimiter", openLimiter)]
    [("requireConnectedGoogle", requireConnectedGoogle);
     ("emailController.getEmails",
      EmailController.getEmails (GmailService.getEmails runtime (rejecting "unreachable")))]
    eq_refl ltac:(constructor; [reflexivity | constructor])) as (Hresponse & Hinvoked & _).
  split; [exact Hresponse | exact Hinvoked].
Defined.

Lemma auth_expired_classification_witness :
  (EmailController.getEmails (GmailService.getEmails runtime (rejecting "invalid_grant"))
     (request "GET" "/" [] [] (Some alice))).2
  = Send 401 (VObj [("error", VStr "Google authentication expired. Please re-authenticate.");
                    ("code", VStr "AUTH_EXPIRED")])
  /\ exists body,
       (EmailController.getEmails (GmailService.getEmails runtime (rejecting "API Error"))
          (request "GET" "/" [] [] (Some alice))).2
       = Send 500 body.
Proof.
  destruct auth_expired_classification as (_ & _ & Hlist & _). split.
  - destruct (Hlist runtime (rejecting "invalid_grant")
                (request "GET" "/" [] [] (Some alice)) alice EmailFilters.empty
                "invalid_grant" eq_refl eq_refl (fun _ _ _ => eq_refl)) as [Hyes _].
    apply Hyes. left. exists "", "". reflexivity.
  - destruct (Hlist runtime (rejecting "API Error")
                (request "GET" "/" [] [] (Some alice)) alice EmailFilters.empty
                "API Error" eq_refl eq_refl (fun _ _ _ => eq_refl)) as [_ Hno].
    apply Hno. intros [H | H]; apply includes_spec in H; vm_compute in H; discriminate.
Defined.

Lemma time_window_cross_field_witness :
  EmailController.getEmails (GmailService.getEmails runtime (rejecting "unreachable"))
    (request "GET" "/" [] [("timeRange", "days")] (Some alice))
  = ([], Send 400 (VObj [("error",
                          VStr "timeValue is required when timeRange is specified")])).
Proof.
  pose proof (time_window_cross_field
    (GmailService.getEmails runtime (rejecting "unreachable"))
    (request "GET" "/" [] [("timeRange", "days")] (Some alice)) alice eq_refl)
    as (Hrange & _ & _).
  destruct (Hrange "days" days eq_refl eq_refl (or_introl eq_refl))
    as (body & Hsent & Hbody).
  rewrite Hsent, Hbody; [reflexivity|]. left. left. reflexivity.
Defined.

Lemma query_synthesis_witness :
  buildQuery utc noon lastWeekUnread = "is:unread after:2024/01/08"
  /\ buildQuery utc noon lastWeekUnread = Spec.query utc noon lastWeekUnread
  /\ buildQuery utc noon (monthsBack 4000000) = "after:NaN/NaN/NaN".
Proof.
  assert (Spec.FilterRecord lastWeekUnread) as Hrecord.
  { split; [|split].
    - intros n [= <-]. lia.
    - split; intros _; eexists; reflexivity.
    - intros n [=]. }
  assert (Spec.FilterRecord (monthsBack 4000000)) as Hrecord'.
  { split; [|split].
    - intros n [= <-]. lia.
    - split; intros _; eexists; reflexivity.
    - intros n [=]. }
  destruct (query_synthesis utc noon lastWeekUnread Hrecord) as (Hquery & Hdate & _).
  destruct (query_synthesis utc noon (monthsBack 4000000) Hrecord') as (Hquery' & _).
  split; [|split].
  - rewrite Hquery. vm_compute. reflexivity.
  - destruct (Hdate days 7 eq_refl eq_refl) as [Hvalid _].
    destruct Hvalid as (_ & _ & _ & _ & _ & Hclaimed).
    + vm_compute. discriminate.
    + apply Hclaimed. vm_compute. split; discriminate.
  - rewrite Hquery'. vm_compute. reflexivity.
Defined.

Lemma toJSON_hides_tokens_witness :
  toJSON_transform (toObject alice 3) = toJSON_transform (toObject aliceRefreshed 3)
  /\ exists out, toJSON_transform (toObject alice 3) = Some out
                 /\ out !! "id" = Some (VStr "64b7f0c2a1d3e4f5a6b7c8d9")
                 /\ out !! "googleAccessToken" = None
                 /\ out !! "googleRefreshToken" = None.
Proof.
  destruct toJSON_hides_tokens as (_ & Hdocs & Hkeys & Htotal). split.
  - apply Hdocs. repeat split; reflexivity.
  - destruct (Htotal alice 3) as (out & Hout & Hid).
    destruct (Hkeys _ _ Hout) as (Ha & Hr & _).
    exists out. repeat split; assumption.
Defined.

Lemma not_found_classification_witness :
  (EmailController.getEmailById (GmailService.getEmailById runtime (rejecting "Not Found"))
     (request "GET" "/999" [("id", "999")] [] (Some alice))).2
  = Send 404 (VObj [("error", VStr "Email not found");
                    ("message", VStr "Failed to fetch email: Not Found")]).
Proof.
  destruct not_found_classification as (Hremote & _).
  apply (Hremote runtime (rejecting "Not Found")
           (request "GET" "/999" [("id", "999")] [] (Some alice)) alice "999" "Not Found"
           eq_refl eq_refl ltac:(discriminate) (fun _ => eq_refl)).
  - left. exists "", "". reflexivity.
  - intros H. apply includes_spec in H. vm_compute in H. discriminate.
  - intros H. apply includes_spec in H. vm_compute in H. discriminate.
Defined.

Lemma plain_text_preference_witness :
  extractBody Base64.decode (multipart [htmlLeaf; plainLeaf]) = "Plain text body"
  /\ extractBody Base64.decode (multipart [htmlLeaf; multipart [htmlLeaf; plainLeaf]])
     = "Plain text body"
  /\ extractBody Base64.decode (multipart [multipart [htmlLeaf]; plainLeaf])
     = extractBody Base64.decode (multipart [htmlLeaf]).
Proof.
  destruct (plain_text_preference Base64.decode) as (_ & Hscan & Hdeep).
  assert (Spec.passedOver Base64.decode htmlLeaf) as Hhtml.
  { split; [intros [Hmime _]; discriminate Hmime | left; reflexivity]. }
  split; [|split].
  - destruct (Hscan (Some "multipart/alternative") None None [htmlLeaf] plainLeaf [])
      as [Hplain _].
    + left. reflexivity.
    + constructor; [exact Hhtml | constructor].
    + apply (Hplain "UGxhaW4gdGV4dCBib2R5"); [reflexivity | reflexivity | discriminate].
  - apply (Hdeep (multipart [htmlLeaf; multipart [htmlLeaf; plainLeaf]])
             "UGxhaW4gdGV4dCBib2R5"); [|vm_compute; discriminate].
    apply (Spec.firstPlain_below Base64.decode (Some "multipart/alternative") None None
             [htmlLeaf] (multipart [htmlLeaf; plainLeaf]) []).
    + left. reflexivity.
    + constructor; [exact Hhtml | constructor].
    + left. reflexivity.
    + apply (Spec.firstPlain_child Base64.decode (Some "multipart/alternative") None None
               [htmlLeaf] plainLeaf []).
      * left. reflexivity.
      * constructor; [exact Hhtml | constructor].
      * reflexivity.
      * reflexivity.
      * discriminate.
  - destruct (Hscan (Some "multipart/alternative") None None [] (multipart [htmlLeaf])
                [plainLeaf]) as [_ Hnested].
    + left. reflexivity.
    + constructor.
    + apply Hnested; [left; reflexivity | eexists; reflexivity | vm_compute; discriminate].
Defined.

Lemma header_extraction_witness :
  let p := parseHeaders knownDates noon [subjectHeader; toHeader; dateHeader] in
  subject p = "Hello" /\ from p = ""
  /\ to p = ["a@example.com"; "b@example.com"]
  /\ date p = Some 1704103200000.
Proof.
  cbv zeta.
  pose proof (header_extraction knownDates noon [subjectHeader; toHeader; dateHeader])
    as ((Hsubject & _) & (_ & Hfrom) & (Hto & _) & (Hdate & _)).
  cbv zeta in *. split; [|split; [|split]].
  - rewrite (Hsubject subjectHeader); [reflexivity|].
    exists [], [toHeader; dateHeader].
    split; [reflexivity|]. split; [reflexivity | constructor].
  - apply Hfrom. repeat constructor; intros H; vm_compute in H; discriminate.
  - rewrite (Hto toHeader); [reflexivity|].
    exists [subjectHeader], [dateHeader]. split; [reflexivity|]. split; [reflexivity|].
    repeat constructor. intros H; vm_compute in H; discriminate.
  - destruct (Hdate dateHeader) as [Hparsed _].
    + exists [subjectHeader; toHeader], []. split; [reflexivity|]. split; [reflexivity|].
      repeat constructor; intros H; vm_compute in H; discriminate.
    + destruct Hparsed as [Hparsed _]; [discriminate|]. rewrite Hparsed. reflexivity.
Defined.

Lemma isRead_parameter_witness :
  exists f, readFilters {[ "isRead" := "TRUE" ]} = inr f
            /\ EmailFilters.isRead f = Some false.
Proof.
  destruct (isRead_parameter {[ "isRead" := "TRUE" ]}) as (Hpresent & _).
  destruct (Hpresent "TRUE" eq_refl) as (Hvalue & Haccepted).
  destruct Haccepted as [f Hf]; [left; reflexivity ..|].
  exists f. split; [exact Hf|].
  apply (Hvalue f Hf). discriminate.
Defined.

End Witnesses.

(** * Further properties *)

(** ** The other gates and the routes *)

Section MoreGates.
Import Express UserModel Middleware GmailService EmailController Examples Behaviour.

Lemma requireRole_next (required : list Role) (req : Request) :
  (requireRole required req).2 = Next <->
  exists u, user req = Some u /\ hasRequiredRole u required = true.
Proof.
  unfold requireRole. destruct (user req) as [u|].
  - destruct (hasRequiredRole u required) eqn:Hr; simpl; split; try done; eauto.
    intros (u' & [= <-] & H). congruence.
  - simpl. split; [done | by intros (u & ? & _)].
Qed.

Lemma intersects_mono (have required required' : list Role) :
  required ⊆ required' -> Spec.intersects have required -> Spec.intersects have required'.
Proof. intros Hsub (r & Hh & Hr). exists r. split; [done | by apply Hsub]. Qed.

(** X1. The role gate lets an identity through exactly when one of its
    roles is among the required ones, and answers 403 "Insufficient
    permissions" otherwise; without an identity it answers 401.  With no
    required role at all it lets nobody through. *)
Theorem role_gate (required : list Role) (req : Request) :
  (forall u, user req = Some u ->
     (Spec.intersects (roles u) required -> (requireRole required req).2 = Next)
     /\ (~ Spec.intersects (roles u) required ->
         (requireRole required req).2
         = Send 403 (VObj [("success", VBool false);
                           ("message", VStr "Insufficient permissions")])))
  /\ (user req = None ->
      (requireRole required req).2
      = Send 401 (VObj [("success", VBool false);
                        ("message", VStr "Authentication required")]))
  /\ (required = [] -> (requireRole required req).2 <> Next).
Proof.
  split; [|split].
  - intros u Hu. unfold requireRole. rewrite Hu. split.
    + intros Hi. apply hasRequiredRole_spec in Hi. by rewrite Hi.
    + intros Hi. rewrite <- hasRequiredRole_spec in Hi.
      apply not_true_is_false in Hi. by rewrite Hi.
  - intros Hu. unfold requireRole. by rewrite Hu.
  - intros -> Hnext. apply requireRole_next in Hnext as (u & _ & Hrole).
    apply hasRequiredRole_spec in Hrole as (r & _ & Hr). by apply elem_of_nil in Hr.
Qed.

(** X2. Whoever passes the role gate for some roles also passes it for
    any larger set of roles, and passes the ownership-or-role gate with the
    same bypass roles on every route that has the parameter. *)
Theorem role_gate_is_strongest
    (required required' : list Role) (paramName : string) (req : Request) :
  (requireRole required req).2 = Next ->
  (required ⊆ required' -> (requireRole required' req).2 = Next)
  /\ (Spec.present (params req !! paramName) ->
      (requireOwnershipOrRole paramName required req).2 = Next).
Proof.
  intros Hnext. apply requireRole_next in Hnext as (u & Hu & Hrole). split.
  - intros Hsub. apply requireRole_next. exists u. split; [done|].
    apply hasRequiredRole_spec. apply (intersects_mono _ required); [done|].
    by apply hasRequiredRole_spec.
  - intros Hp. apply truthy_present in Hp.
    unfold requireOwnershipOrRole. rewrite Hu, Hp, Hrole. simpl.
    by rewrite orb_true_r.
Qed.

(** X3. The Google gate lets an identity through exactly when it holds a
    non-empty access token; otherwise it answers 403 with the code
    GOOGLE_NOT_CONNECTED, whatever refresh token is stored. *)
Theorem connected_google_gate (req : Request) (u : IUser) :
  user req = Some u ->
  (Spec.present (googleAccessToken u) -> (requireConnectedGoogle req).2 = Next)
  /\ (Spec.absent (googleAccessToken u) ->
      (requireConnectedGoogle req).2
      = Send 403
          (VObj [("success", VBool false);
                 ("message", VStr "Google account connection required. Please connect your Google account to access Gmail features.");
                 ("code", VStr "GOOGLE_NOT_CONNECTED")])).
Proof.
  intros Hu. unfold requireConnectedGoogle. rewrite Hu. split.
  - intros Hp. apply truthy_present in Hp. by rewrite Hp.
  - intros Ha. apply truthy_absent in Ha. by rewrite Ha.
Qed.

(** Who gets as far as the controller of an email route. *)
Lemma guarded_route (limiter controller : Handler) (name : string) (req : Request) :
  name <> "apiRateLimiter" -> name <> "requireUser" -> name <> "requireConnectedGoogle" ->
  let run :=
    dispatch [("apiRateLimiter", limiter); ("requireUser", requireUser);
              ("requireConnectedGoogle", requireConnectedGoogle); (name, controller)]
             req in
  name ∈ invoked run <->
  (limiter req).2 = Next
  /\ exists u, user req = Some u /\ isAuthenticated req = true
               /\ Spec.present (googleAccessToken u).
Proof.
  intros N1 N2 N3. cbv zeta. simpl.
  destruct (limiter req) as [l1 [|s1 b1]]; simpl.
  2: { rewrite list_elem_of_singleton. split; [done | by intros [? _]]. }
  unfold requireUser, requireConnectedGoogle.
  destruct (user req) as [u|]; simpl.
  2: { destruct (negb (isAuthenticated req)); simpl;
       rewrite !elem_of_cons, elem_of_nil; split;
         try (intros [?|[?|[]]]; done); by intros (_ & ? & ? & _). }
  destruct (isAuthenticated req); simpl.
  2: { rewrite !elem_of_cons, elem_of_nil; split;
         [intros [?|[?|[]]]; done | by intros (_ & ? & _ & ? & _)]. }
  destruct (Js.truthy (googleAccessToken u)) eqn:Ht; simpl.
  - destruct (controller req) as [l4 [|s4 b4]]; simpl;
      rewrite !elem_of_cons; (split; [|by eauto 10]); intros _;
      (split; [done|]); exists u; by rewrite <- truthy_present.
  - rewrite !elem_of_cons, elem_of_nil. split; [intros [?|[?|[?|[]]]]; done|].
    intros (_ & u' & [= <-] & _ & Hp). apply truthy_present in Hp. congruence.
Qed.

Lemma unguarded_route (limiter c1 c2 : Handler) (name : string) (req : Request) :
  ~ ((limiter req).2 = Next
     /\ exists u, user req = Some u /\ isAuthenticated req = true
                  /\ Spec.present (googleAccessToken u)) ->
  dispatch [("apiRateLimiter", limiter); ("requireUser", requireUser);
            ("requireConnectedGoogle", requireConnectedGoogle); (name, c1)] req
  = dispatch [("apiRateLimiter", limiter); ("requireUser", requireUser);
              ("requireConnectedGoogle", requireConnectedGoogle); (name, c2)] req.
Proof.
  intros Hno. simpl.
  destruct (limiter req) as [l1 [|s1 b1]]; simpl; [|done].
  unfold requireUser, requireConnectedGoogle.
  destruct (user req) as [u|]; simpl.
  2: { by destruct (negb (isAuthenticated req)). }
  destruct (isAuthenticated req) eqn:Ha; simpl; [|done].
  destruct (Js.truthy (googleAccessToken u)) eqn:Ht; simpl; [|done].
  exfalso. apply Hno. split; [done|]. exists u. by rewrite <- truthy_present.
Qed.

(** X4. On both email routes the controller is invoked exactly for the
    requests that the rate limiter lets through and that carry an
    authenticated identity with a non-empty Google access token; for every
    other request the answer does not depend on the mailbox at all. *)
Theorem email_routes_guard
    (limiter : Handler) (rt : Runtime) (api : GmailApi) (req : Request) :
  let admitted :=
    (limiter req).2 = Next
    /\ exists u, user req = Some u /\ isAuthenticated req = true
                 /\ Spec.present (googleAccessToken u) in
  ("emailController.getEmails" ∈ invoked (dispatch (emailsRoute limiter rt api) req)
   <-> admitted)
  /\ ("emailController.getEmailById"
        ∈ invoked (dispatch (emailByIdRoute limiter rt api) req)
      <-> admitted)
  /\ (~ admitted -> forall rt' api',
        dispatch (emailsRoute limiter rt api) req
        = dispatch (emailsRoute limiter rt' api') req
        /\ dispatch (emailByIdRoute limiter rt api) req
           = dispatch (emailByIdRoute limiter rt' api') req).
Proof.
  cbv zeta. split; [|split].
  - by apply guarded_route.
  - by apply guarded_route.
  - intros Hno rt' api'. split; by apply unguarded_route.
Qed.

Lemma getEmails_401 service (req : Request) (u : IUser) (body : jsval) :
  user req = Some u ->
  (EmailController.getEmails service req).2 = Send 401 body -> body = authExpiredBody.
Proof.
  intros Hu. unfold EmailController.getEmails. rewrite Hu.
  destruct (readFilters (query req)) as [b|f]; simpl; [done|].
  destruct (service u f) as [l [m|es]]; simpl; [|done].
  destruct (authExpired m); simpl; [by intros [= <-] | done].
Qed.

Lemma getEmailById_401 service (req : Request) (u : IUser) (body : jsval) :
  user req = Some u ->
  (EmailController.getEmailById service req).2 = Send 401 body -> body = authExpiredBody.
Proof.
  intros Hu. unfold EmailController.getEmailById. rewrite Hu.
  destruct (negb (Js.truthy (params req !! "id"))); simpl; [done|].
  destruct (service u (default "" (params req !! "id"))) as [l [m|e]]; simpl; [|done].
  destruct (authExpired m); simpl; [by intros [= <-]|].
  by destruct (Js.includes "Not Found" m || Js.includes "404" m).
Qed.

Lemma guarded_401 (limiter controller : Handler) (name : string) (req : Request) :
  (limiter req).2 = Next ->
  (forall u body, user req = Some u -> (controller req).2 = Send 401 body ->
                  body = authExpiredBody) ->
  let run :=
    dispatch [("apiRateLimiter", limiter); ("requireUser", requireUser);
              ("requireConnectedGoogle", requireConnectedGoogle); (name, controller)]
             req in
  forall body, response run = Some (401, body) ->
    (body = VObj [("success", VBool false); ("message", VStr "Authentication required")]
     /\ invoked run = ["apiRateLimiter"; "requireUser"])
    \/ (body = authExpiredBody
        /\ invoked run = ["apiRateLimiter"; "requireUser"; "requireConnectedGoogle"; name]).
Proof.
  intros Hl Hc. cbv zeta. simpl.
  destruct (limiter req) as [l1 o1]. simpl in Hl. subst o1. simpl.
  unfold requireUser, requireConnectedGoogle.
  destruct (user req) as [u|] eqn:Hu; simpl.
  2: { destruct (negb (isAuthenticated req)); simpl; intros body [= <-]; by left. }
  destruct (isAuthenticated req); simpl.
  2: { intros body [= <-]. by left. }
  destruct (Js.truthy (googleAccessToken u)); simpl; [|done].
  specialize (Hc u). destruct (controller req) as [l4 [|s4 b4]]; simpl; [done|].
  intros body [= -> ->]. right. split; [|done]. by apply Hc.
Qed.

(** X5. Behind the rate limiter, a 401 of an email route is either the
    "Authentication required" of [requireUser], with nothing invoked after
    it, or the AUTH_EXPIRED answer of the controller: the no-user branches
    of [requireConnectedGoogle] and of the controllers ("User not
    authenticated") are never the answer. *)
Theorem email_routes_401
    (limiter : Handler) (rt : Runtime) (api : GmailApi) (req : Request) (body : jsval) :
  (limiter req).2 = Next ->
  let expired :=
    VObj [("error", VStr "Google authentication expired. Please re-authenticate.");
          ("code", VStr "AUTH_EXPIRED")] in
  let required :=
    VObj [("success", VBool false); ("message", VStr "Authentication required")] in
  (response (dispatch (emailsRoute limiter rt api) req) = Some (401, body) ->
     (body = required
      /\ invoked (dispatch (emailsRoute limiter rt api) req)
         = ["apiRateLimiter"; "requireUser"])
     \/ body = expired)
  /\ (response (dispatch (emailByIdRoute limiter rt api) req) = Some (401, body) ->
     (body = required
      /\ invoked (dispatch (emailByIdRoute limiter rt api) req)
         = ["apiRateLimiter"; "requireUser"])
     \/ body = expired).
Proof.
  intros Hl. cbv zeta. split; intros Hr.
  - destruct (guarded_401 limiter _ "emailController.getEmails" req Hl
                (fun u b => getEmails_401 _ req u b) body Hr) as [?|[? _]]; [by left | by right].
  - destruct (guarded_401 limiter _ "emailController.getEmailById" req Hl
                (fun u b => getEmailById_401 _ req u b) body Hr) as [?|[? _]]; [by left | by right].
Qed.

End MoreGates.

(** ** What the controller accepts and what the service asks for *)

Section MoreFilters.
Import Express UserModel Middleware GmailService EmailController Examples Behaviour.

Lemma readFilters_record (q : gmap string string) (f : EmailFilters.t) :
  readFilters q = inr f -> Spec.FilterRecord f.
Proof.
  unfold readFilters, mbind, early_return, Spec.FilterRecord.
  repeat (case_match; simplify_eq/=); try done; intros [= <-]; simpl;
    repeat match goal with
    | H : Js.isNaN ?p || _ = false |- _ =>
        destruct p; simpl in H; [|discriminate H]
    | H : _ || _ = false |- _ => apply orb_false_iff in H as [? ?]
    end;
    simpl in *;
    repeat match goal with
    | H : (_ <=? _) = false |- _ => apply Z.leb_gt in H
    | H : (_ <? _) = false |- _ => apply Z.ltb_ge in H
    end;
    (split; [intros n Hn; simplify_eq/=; lia|]);
    (split; [|intros n Hn; simplify_eq/=; lia]);
    split; intros [x Hx]; simplify_eq/=; eauto; exfalso;
    repeat match goal with
    | H : context [?a =? 0] |- _ => destruct (Z.eqb_spec a 0); simpl in H
    end; try lia; discriminate.
Qed.


(** X6. Whatever the controller accepts is a Filter Record: the count,
    when set, is positive, unit and count are set together, and the cap,
    when set, is between 1 and 500.  So the mailbox client is only ever
    called with Filter Records: two services that agree on those give the
    same answer to every request. *)
Theorem accepted_filters_are_records :
  (forall q f, readFilters q = inr f -> Spec.FilterRecord f)
  /\ (forall service service' req,
        (forall u f, Spec.FilterRecord f -> service u f = service' u f) ->
        EmailController.getEmails service req = EmailController.getEmails service' req).
Proof.
  split; [exact readFilters_record|].
  intros service service' req Hagree. unfold EmailController.getEmails.
  destruct (user req) as [u|]; [|done].
  destruct (readFilters (query req)) as [b|f] eqn:Hf; [done|].
  by rewrite (Hagree u f (readFilters_record _ _ Hf)).
Qed.

(** X7. With no time window asked for, [maxResults] decides: absent, the
    filter carries no cap; a value that parses to an integer from 1 to
    500 becomes the cap; any other non-empty value (0, 501, "abc") is
    rejected with "maxResults must be between 1 and 500". *)
Theorem result_cap (q : gmap string string) :
  Spec.absent (q !! "timeRange") -> Spec.absent (q !! "timeValue") ->
  (Spec.absent (q !! "maxResults") ->
     exists f, readFilters q = inr f /\ EmailFilters.maxResults f = None)
  /\ (forall s n, q !! "maxResults" = Some s -> Js.parseInt s = Some n ->
        1 <= n <= 500 ->
        exists f, readFilters q = inr f /\ EmailFilters.maxResults f = Some n)
  /\ (forall s, q !! "maxResults" = Some s -> s <> "" ->
        Js.parseInt s = None
        \/ (exists n, Js.parseInt s = Some n /\ (n <= 0 \/ 500 < n)) ->
        readFilters q = inl (VObj [("error", VStr "maxResults must be between 1 and 500")])).
Proof.
  intros Hr Hv.
  destruct (no_time_window q Hr Hv) as (Hbody & _ & Hsome). split; [|split].
  - intros Hm. destruct (Hsome (or_introl Hm)) as [f Hf]. exists f. split; [done|].
    apply readFilters_accepted in Hf as (_ & _ & _ & ->).
    apply truthy_absent in Hm. by rewrite Hm.
  - intros s n Hs Hn Hle.
    destruct (Hsome (or_intror (ex_intro _ s (ex_intro _ n (conj Hs (conj Hn Hle))))))
      as [f Hf].
    exists f. split; [done|].
    apply readFilters_accepted in Hf as (_ & _ & _ & ->).
    rewrite Hs. simpl default. rewrite Hn.
    assert (s <> "") as Hne by (intros ->; discriminate Hn).
    by destruct s.
  - intros s Hs Hne Hbad.
    destruct (readFilters q) as [body|f] eqn:Hf.
    + by rewrite (Hbody body eq_refl).
    + exfalso. pose proof (readFilters_record _ _ Hf) as (_ & _ & Hcap).
      pose proof (readFilters_accepted _ _ Hf) as (_ & _ & _ & Hm).
      rewrite Hs in Hm. simpl default in Hm.
      assert (Js.truthy (Some s) = true) as Ht by by destruct s.
      rewrite Ht in Hm.
      destruct Hbad as [Hn | (n & Hn & Hbad)]; rewrite Hn in Hm.
      * revert Hf. clear -Hs Hn Ht Hr Hv. apply truthy_absent in Hr, Hv.
        unfold readFilters, mbind, early_return. rewrite Hr, Hv, Hs, Ht.
        simpl default. cbv zeta. rewrite Hn. simpl.
        by destruct (q !! "isRead").
      * specialize (Hcap n Hm). lia.
Qed.

(** The outcome of [getEmails], case by case. *)
Lemma getEmails_cases (rt : Runtime) (api : GmailApi) (u : IUser) (f : EmailFilters.t) :
  (GmailService.getEmails rt api u f).2 =
    match listCall rt api u f with
    | inl e => inl ("Failed to fetch emails: " +:+ e)
    | inr listResponse =>
        if (length (default [] listResponse) =? 0)%nat then inr []
        else match (mapM (fetchOne rt api u) (default [] listResponse)).2 with
             | inl e => inl ("Failed to fetch emails: " +:+ e)
             | inr emails => inr emails
             end
    end.
Proof.
  unfold GmailService.getEmails, listCall, try_catch, bind at 1 2, say, await, throw.
  destruct (messages_list _ _ _ _) as [e|listResponse]; [done|].
  destruct (length (default [] listResponse) =? 0)%nat; [done|].
  change (mapM _ (default [] listResponse))
    with (mapM (fetchOne rt api u) (default [] listResponse)).
  by destruct (mapM (fetchOne rt api u) (default [] listResponse)) as [l [e|emails]].
Qed.


(** X9. The parameters are checked in a fixed order, and the first bad
    one is reported: a [timeRange] other than the four exact words is
    rejected whatever else is sent; with [timeRange] in order, a
    [timeValue] that is not a positive integer is rejected next.  Every
    rejection is answered 400 with one of five messages, before the
    mailbox is asked anything. *)
Theorem validation_order (q : gmap string string) :
  (forall s, rangeOf s <> None <-> s ∈ ["hours"; "days"; "weeks"; "months"])
  /\ (forall s, q !! "timeRange" = Some s -> s <> "" -> rangeOf s = None ->
        readFilters q
        = inl (VObj [("error",
                      VStr "Invalid timeRange. Must be one of: hours, days, weeks, months")]))
  /\ (forall s, Spec.absent (q !! "timeRange")
                \/ (exists t, q !! "timeRange" = Some t /\ rangeOf t <> None) ->
        q !! "timeValue" = Some s -> s <> "" ->
        Js.parseInt s = None \/ (exists n, Js.parseInt s = Some n /\ n <= 0) ->
        readFilters q = inl (VObj [("error", VStr "timeValue must be a positive number")]))
  /\ (forall body, readFilters q = inl body ->
        body ∈ map (fun m => VObj [("error", VStr m)])
               ["Invalid timeRange. Must be one of: hours, days, weeks, months";
                "timeValue must be a positive number";
                "maxResults must be between 1 and 500";
                "timeValue is required when timeRange is specified";
                "timeRange is required when timeValue is specified"])
  /\ (forall service req u body,
        user req = Some u -> query req = q -> readFilters q = inl body ->
        EmailController.getEmails service req = ([], Send 400 body)).
Proof.
  split; [|split; [|split; [|split]]].
  - intros s. unfold rangeOf. rewrite !elem_of_cons, elem_of_nil.
    destruct (String.eqb_spec s "hours") as [->|N1]; [split; [by left | done]|].
    destruct (String.eqb_spec s "days") as [->|N2]; [split; [by right; left | done]|].
    destruct (String.eqb_spec s "weeks") as [->|N3];
      [split; [by right; right; left | done]|].
    destruct (String.eqb_spec s "months") as [->|N4];
      [split; [by right; right; right; left | done]|].
    split; [done | intros [?|[?|[?|[?|[]]]]]; done].
  - intros s Hs Hne Hr. assert (Js.truthy (Some s) = true) as Ht by by destruct s.
    unfold readFilters, mbind, early_return. rewrite Hs, Ht. simpl default. by rewrite Hr.
  - intros s Hrange Hs Hne Hbad.
    assert (Js.truthy (Some s) = true) as Ht by by destruct s.
    unfold readFilters, mbind, early_return. rewrite Hs, Ht. simpl default. cbv zeta.
    assert (Js.isNaN (Js.parseInt s) || Js.leb (Js.parseInt s) 0 = true) as Hchk.
    { destruct Hbad as [-> | (n & -> & Hn)]; [done|]. simpl. by apply Z.leb_le. }
    rewrite Hchk.
    destruct Hrange as [Ha | (t & Ht' & Hr)].
    + apply truthy_absent in Ha. by rewrite Ha.
    + rewrite Ht'. simpl default.
      destruct (rangeOf t); [|done]. by destruct (Js.truthy (Some t)).
  - intros body. unfold readFilters, mbind, early_return. simpl map. unfold errorBody.
    repeat (case_match; simplify_eq/=); try done; intros [= <-];
      rewrite !elem_of_cons; naive_solver.
  - intros service req u body Hu <- Hb. unfold EmailController.getEmails.
    by rewrite Hu, Hb.
Qed.

End MoreFilters.

(** ** The mailbox client *)

Section MoreService.
Import Express UserModel Middleware GmailService EmailController Examples Behaviour.

Lemma mapM_failed {A B} (f : A -> Svc B) (l : list A) (e : string) :
  (mapM f l).2 = inl e -> exists a, a ∈ l /\ (f a).2 = inl e.
Proof.
  induction l as [|a l IH]; simpl; [done|].
  unfold bind at 1. destruct (f a) as [la [ea|b]] eqn:Hfa; simpl.
  - intros [= ->]. exists a. split; [by left | by rewrite Hfa].
  - unfold bind at 1. destruct (mapM f l) as [ll [el|bs]]; simpl.
    + intros [= ->]. destruct (IH eq_refl) as (a' & Hin & Ha'). exists a'.
      split; [by right | done].
    + done.
Qed.

Lemma mapM_resolved {A B} (f : A -> Svc B) (l : list A) (bs : list B) :
  (mapM f l).2 = inr bs -> Forall2 (fun a b => (f a).2 = inr b) l bs.
Proof.
  revert bs. induction l as [|a l IH]; simpl; intros bs.
  - intros [= <-]. constructor.
  - unfold bind at 1. destruct (f a) as [la [ea|b]] eqn:Hfa; simpl; [done|].
    unfold bind at 1. destruct (mapM f l) as [ll [el|bs']]; simpl; [done|].
    intros [= <-]. constructor; [by rewrite Hfa | by apply IH].
Qed.

Lemma mapM_all_resolve {A B} (f : A -> Svc B) (l : list A) (bs : list B) :
  Forall2 (fun a b => (f a).2 = inr b) l bs -> (mapM f l).2 = inr bs.
Proof.
  induction 1 as [|a b l bs Hab _ IH]; simpl; [done|].
  unfold bind at 1. destruct (f a) as [la r]. simpl in Hab. subst r. simpl.
  unfold bind at 1. destruct (mapM f l) as [ll r]. simpl in IH. by subst r.
Qed.

Lemma fetchOne_failed (rt : Runtime) (api : GmailApi) (u : IUser) (id e : string) :
  (fetchOne rt api u id).2 = inl e ->
  messages_get api (createOAuth2Client u) id = inl e
  \/ exists msg, messages_get api (createOAuth2Client u) id = inr msg
                 /\ Message.payload msg = None
                 /\ e = "Cannot read properties of undefined (reading 'body')".
Proof.
  unfold fetchOne, bind, await.
  destruct (messages_get _ _ _) as [e'|msg]; simpl; [intros [= ->]; by left|].
  unfold normalise, bind, throw, ret.
  destruct (Message.payload msg) eqn:Hp; simpl; [done|].
  intros [= <-]. right. by exists msg.
Qed.

Lemma existsb_string (s : string) (l : list string) :
  existsb (String.eqb s) l = bool_decide (s ∈ l).
Proof.
  induction l as [|a l IH]; cbn [existsb].
  - symmetry. apply bool_decide_eq_false. by intros ?%elem_of_nil.
  - rewrite IH. destruct (String.eqb_spec s a) as [->|Hne]; cbn [orb].
    + symmetry. apply bool_decide_eq_true. by left.
    + apply bool_decide_ext. rewrite elem_of_cons. naive_solver.
Qed.

Lemma normalise_resolved (rt : Runtime) (msg : Message.t) (e : EmailMessage.t) :
  (normalise rt msg).2 = inr e ->
  exists payload,
    Message.payload msg = Some payload
    /\ e = {| EmailMessage.id := Message.id msg;
              EmailMessage.threadId := Message.threadId msg;
              EmailMessage.subject :=
                getHeader (default [] (Part.headers payload)) "Subject";
              EmailMessage.from := getHeader (default [] (Part.headers payload)) "From";
              EmailMessage.to :=
                map Js.trim
                    (Js.split "," (getHeader (default [] (Part.headers payload)) "To"));
              EmailMessage.date :=
                date (parseHeaders (parseDate rt) (now rt)
                                   (default [] (Part.headers payload)));
              EmailMessage.snippet := default "" (Message.snippet msg);
              EmailMessage.body := extractBody (decode rt) payload;
              EmailMessage.isRead :=
                negb (bool_decide ("UNREAD" ∈ default [] (Message.labelIds msg)));
              EmailMessage.labels := default [] (Message.labelIds msg) |}.
Proof.
  unfold normalise, bind, throw, ret.
  assert (match Message.labelIds msg with
          | Some ids => existsb (String.eqb "UNREAD") ids
          | None => false
          end = bool_decide ("UNREAD" ∈ default [] (Message.labelIds msg))) as ->.
  { destruct (Message.labelIds msg) as [ids|]; cbn [default].
    - apply existsb_string.
    - symmetry. apply bool_decide_eq_false. by intros ?%elem_of_nil. }
  rewrite or_empty_default.
  destruct (Message.payload msg) as [payload|] eqn:Hp; cbn [mbind option_bind snd];
    [|done].
  intros [= <-]. by exists payload.
Qed.

Lemma normalise_with_payload (rt : Runtime) (msg : Message.t) :
  is_Some (Message.payload msg) -> exists e, normalise rt msg = ([], inr e).
Proof.
  intros [payload Hp]. unfold normalise, bind, ret. rewrite Hp. simpl. eauto.
Qed.

Lemma getEmailById_cases (rt : Runtime) (api : GmailApi) (u : IUser) (id : string) :
  (GmailService.getEmailById rt api u id).2 =
    match (fetchOne rt api u id).2 with
    | inl e => inl ("Failed to fetch email: " +:+ e)
    | inr email => inr email
    end.
Proof.
  unfold GmailService.getEmailById, fetchOne, try_catch, bind at 1 2 3, say, await, throw.
  destruct (messages_get _ _ _) as [e|msg]; [done|].
  unfold bind. by destruct (normalise rt msg) as [l [e|email]].
Qed.

(** X10. Nothing leaves the mailbox client unwrapped.  An error of
    [getEmails] reads "Failed to fetch emails: " followed by the message of
    the failed list call, of a failed fetch of one of the listed messages,
    or of the TypeError raised on a message without payload; an error of
    [getEmailById] reads "Failed to fetch email: " followed by the
    message of the failed fetch or of that TypeError. *)
Theorem service_errors_are_wrapped (rt : Runtime) (api : GmailApi) (u : IUser) :
  let missing := "Cannot read properties of undefined (reading 'body')" in
  let fetchError id e :=
    messages_get api (createOAuth2Client u) id = inl e
    \/ exists msg, messages_get api (createOAuth2Client u) id = inr msg
                   /\ Message.payload msg = None /\ e = missing in
  (forall f m, (GmailService.getEmails rt api u f).2 = inl m ->
     exists e, m = "Failed to fetch emails: " +:+ e
       /\ (listCall rt api u f = inl e
           \/ exists ids id, listCall rt api u f = inr (Some ids) /\ id ∈ ids
                             /\ fetchError id e))
  /\ (forall id m, (GmailService.getEmailById rt api u id).2 = inl m ->
        exists e, m = "Failed to fetch email: " +:+ e /\ fetchError id e).
Proof.
  cbv zeta. split.
  - intros f m. rewrite getEmails_cases.
    destruct (listCall rt api u f) as [e|r]; [intros [= <-]; eauto|].
    destruct (length (default [] r) =? 0)%nat; [done|].
    destruct (mapM _ _) as [l [e|emails]] eqn:Hm; simpl; [|done].
    intros [= <-]. exists e. split; [done|]. right.
    destruct (mapM_failed _ _ e (f_equal snd Hm)) as (id & Hin & Hid).
    destruct r as [ids|]; [|by apply elem_of_nil in Hin].
    exists ids, id. repeat split; try done. by apply (fetchOne_failed rt).
  - intros id m. rewrite getEmailById_cases.
    destruct (fetchOne rt api u id).2 as [e|email] eqn:He; [|done].
    intros [= <-]. exists e. split; [done|]. by apply (fetchOne_failed rt).
Qed.

(** X11. An empty mailbox is no error.  When the list call resolves
    without messages, [data.messages] missing or empty, [getEmails]
    returns the empty list without fetching anything, and the list endpoint
    answers 200 with count 0. *)
Theorem empty_mailbox
    (rt : Runtime) (api : GmailApi) (u : IUser) (f : EmailFilters.t)
    (listResponse : option (list string)) :
  (forall auth q n, messages_list api auth q n = inr listResponse) ->
  default [] listResponse = [] ->
  (GmailService.getEmails rt api u f).2 = inr []
  /\ (forall api', (forall auth q n, messages_list api' auth q n = inr listResponse) ->
        GmailService.getEmails rt api' u f = GmailService.getEmails rt api u f)
  /\ (forall req, user req = Some u -> readFilters (query req) = inr f ->
        (EmailController.getEmails (GmailService.getEmails rt api) req).2
        = Send 200 (VObj [("success", VBool true); ("count", VNum 0);
                          ("filters", filtersVal f); ("emails", VArr [])])).
Proof.
  intros Hlist Hempty.
  assert (forall api', (forall auth q n, messages_list api' auth q n = inr listResponse) ->
    GmailService.getEmails rt api' u f
    = ([{| level := Debug;
           text := "Fetching emails for " +:+ email u +:+ " with query: " +:+ quote
                   +:+ buildQuery (localTZA rt) (now rt) f +:+ quote |};
        {| level := Info;
           text := "No emails found for " +:+ email u +:+ " with filters: "
                   +:+ stringifyFilters f |}],
       inr [])) as Hrun.
  { intros api' Hlist'.
    unfold GmailService.getEmails, try_catch, bind, say, await, ret.
    rewrite Hlist', Hempty. done. }
  split; [by rewrite (Hrun api Hlist)|]. split.
  - intros api' Hlist'. by rewrite (Hrun api Hlist), (Hrun api' Hlist').
  - intros req Hu Hf. unfold EmailController.getEmails.
    by rewrite Hu, Hf, (Hrun api Hlist).
Qed.

Lemma getEmails_resolved (rt : Runtime) (api : GmailApi) (u : IUser)
    (f : EmailFilters.t) (ids : list string) (msgs : list Message.t) :
  (forall auth q n, messages_list api auth q n = inr (Some ids)) ->
  Forall2 (fun id msg => (forall auth, messages_get api auth id = inr msg)
                         /\ is_Some (Message.payload msg)) ids msgs ->
  exists emails,
    (GmailService.getEmails rt api u f).2 = inr emails
    /\ Forall2 (fun msg e => normalise rt msg = ([], inr e)) msgs emails.
Proof.
  intros Hlist Hget.
  assert (exists emails,
    Forall2 (fun msg e => normalise rt msg = ([], inr e)) msgs emails
    /\ Forall2 (fun id e => (fetchOne rt api u id).2 = inr e) ids emails)
    as (emails & Hnorm & Hfetch).
  { clear Hlist. induction Hget as [|id msg ids msgs [Hid Hp] _ (emails & IH1 & IH2)].
    - exists []. split; constructor.
    - destruct (normalise_with_payload rt msg Hp) as [e He].
      exists (e :: emails). split; constructor; try done.
      unfold fetchOne, bind, await. by rewrite Hid, He. }
  exists emails. split; [|done].
  rewrite getEmails_cases. unfold listCall. rewrite Hlist. simpl default.
  rewrite (mapM_all_resolve _ _ _ Hfetch).
  destruct (length ids =? 0)%nat eqn:E; [|done].
  apply Nat.eqb_eq in E. destruct ids; [|done].
  inversion Hfetch. done.
Qed.

Lemma normalise_ids (rt : Runtime) (msgs : list Message.t) (emails : list EmailMessage.t) :
  Forall2 (fun msg e => normalise rt msg = ([], inr e)) msgs emails ->
  map EmailMessage.id emails = map Message.id msgs
  /\ map EmailMessage.threadId emails = map Message.threadId msgs.
Proof.
  induction 1 as [|msg e msgs emails He _ [IH1 IH2]]; simpl; [done|].
  destruct (normalise_resolved rt msg e) as (payload & _ & ->); [by rewrite He|].
  simpl. by rewrite IH1, IH2.
Qed.

(** X12. [getEmails] keeps the order of the remote list.  When the list
    call resolves to ids whose fetches all resolve to messages with a
    payload, the result holds one record per id, in the order of the list,
    each the normalisation of the message fetched for that id. *)
Theorem listing_order_preserved
    (rt : Runtime) (api : GmailApi) (u : IUser) (f : EmailFilters.t)
    (ids : list string) (msgs : list Message.t) :
  (forall auth q n, messages_list api auth q n = inr (Some ids)) ->
  Forall2 (fun id msg => (forall auth, messages_get api auth id = inr msg)
                         /\ is_Some (Message.payload msg)) ids msgs ->
  exists emails,
    (GmailService.getEmails rt api u f).2 = inr emails
    /\ length emails = length ids
    /\ map EmailMessage.id emails = map Message.id msgs
    /\ map EmailMessage.threadId emails = map Message.threadId msgs
    /\ Forall2 (fun msg e => normalise rt msg = ([], inr e)) msgs emails.
Proof.
  intros Hlist Hget.
  destruct (getEmails_resolved rt api u f ids msgs Hlist Hget) as (emails & Hres & Hnorm).
  exists emails. destruct (normalise_ids rt msgs emails Hnorm) as [Hid Hth].
  repeat split; try done.
  by rewrite <- (Forall2_length _ _ _ Hnorm), (Forall2_length _ _ _ Hget).
Qed.


Lemma normalise_consistent (rt : Runtime) (msg : Message.t) (e : EmailMessage.t) :
  (normalise rt msg).2 = inr e -> readFlagConsistent e.
Proof.
  intros He. destruct (normalise_resolved rt msg e He) as (payload & _ & ->).
  unfold readFlagConsistent. simpl.
  by rewrite negb_true_iff, bool_decide_eq_false.
Qed.

Lemma fetchOne_consistent (rt : Runtime) (api : GmailApi) (u : IUser)
    (id : string) (e : EmailMessage.t) :
  (fetchOne rt api u id).2 = inr e -> readFlagConsistent e.
Proof.
  unfold fetchOne, bind, await.
  destruct (messages_get _ _ _) as [e'|msg]; simpl; [done|].
  destruct (normalise rt msg) as [l r] eqn:Hn. simpl. intros ->.
  apply (normalise_consistent rt msg). by rewrite Hn.
Qed.

(** X14. In every record the mailbox client returns, from either entry
    point, the read flag agrees with the labels: [isRead] is true exactly
    when UNREAD is not among [labels]. *)
Theorem read_flag_agrees_with_labels (rt : Runtime) (api : GmailApi) (u : IUser) :
  (forall f emails, (GmailService.getEmails rt api u f).2 = inr emails ->
     Forall (fun e => EmailMessage.isRead e = true
                      <-> "UNREAD" ∉ EmailMessage.labels e) emails)
  /\ (forall id e, (GmailService.getEmailById rt api u id).2 = inr e ->
        (EmailMessage.isRead e = true <-> "UNREAD" ∉ EmailMessage.labels e)).
Proof.
  split.
  - intros f emails. rewrite getEmails_cases.
    destruct (listCall rt api u f) as [e|r]; [done|].
    destruct (length (default [] r) =? 0)%nat; [intros [= <-]; constructor|].
    destruct (mapM _ _) as [l [e|emails']] eqn:Hm; simpl; [done|].
    intros [= <-]. pose proof (mapM_resolved _ _ _ (f_equal snd Hm)) as Hall.
    clear Hm. induction Hall as [|id e ids es He _ IH]; constructor; [|done].
    by apply (fetchOne_consistent rt api u id).
  - intros id e. rewrite getEmailById_cases.
    destruct (fetchOne rt api u id).2 as [e'|e'] eqn:He; [done|].
    intros [= <-]. by apply (fetchOne_consistent rt api u id).
Qed.

End MoreService.

(** ** More on body extraction *)

Section MoreBody.
Import Express GmailService Examples Behaviour.

Variable decode : string -> string.

Lemma Part_induction (P : Part.t -> Prop) :
  (forall m h b, P (Part.Make m h b None)) ->
  (forall m h b l, Forall P l -> P (Part.Make m h b (Some l))) ->
  forall p, P p.
Proof.
  intros Hleaf Hnode. fix IH 1. intros [m h b [l|]]; [|apply Hleaf].
  apply Hnode. revert l. fix IHl 1. intros [|c l]; constructor; [apply IH | apply IHl].
Qed.

Lemma allData_eq (p : Part.t) :
  allData p =
    (if Js.truthy (bodyData p) then [default "" (bodyData p)] else [])
    ++ match Part.parts p with
       | Some children => flat_map allData children
       | None => []
       end.
Proof.
  destruct p as [m h b [l|]]; unfold bodyData; simpl; [|done]. by f_equal.
Qed.

Lemma own_data (p : Part.t) :
  Js.truthy (bodyData p) = true -> default "" (bodyData p) ∈ allData p.
Proof. intros Ht. rewrite allData_eq, Ht. by left. Qed.

Lemma scan_sound (D : list string) (ps : list Part.t) (body : string) :
  Forall (fun c => forall d, d ∈ allData c -> d ∈ D) ps ->
  Forall (fun c => extractBody decode c = ""
                   \/ exists d, d ∈ allData c /\ extractBody decode c = decode d) ps ->
  body = "" \/ (exists d, d ∈ D /\ body = decode d) ->
  scan decode ps body = ""
  \/ exists d, d ∈ D /\ scan decode ps body = decode d.
Proof.
  intros HD Hps. revert body.
  induction ps as [|c ps IH]; intros body Hbody; simpl; [done|].
  apply Forall_cons in HD as [HcD HD]. apply Forall_cons in Hps as [Hc Hps].
  destruct (isMime c "text/plain" && Js.truthy (bodyData c)) eqn:Hplain.
  { apply andb_true_iff in Hplain as [_ Ht]. right.
    exists (default "" (bodyData c)). split; [|done]. by apply HcD, own_data. }
  destruct (isMime c "text/html" && Js.truthy (bodyData c) && negb (Js.nonempty body))
    eqn:Hhtml.
  { apply andb_true_iff in Hhtml as [Hhtml _]. apply andb_true_iff in Hhtml as [_ Ht].
    apply IH; [done..|]. right.
    exists (default "" (bodyData c)). split; [|done]. by apply HcD, own_data. }
  destruct (Part.parts c); [|by apply IH].
  destruct (Js.nonempty (extractBody decode c)) eqn:Hne.
  - destruct Hc as [Hc | (d & Hd & Hc)]; [by rewrite Hc in Hne|].
    right. exists d. split; [by apply HcD | done].
  - apply IH; [done..|]. left. by destruct (extractBody decode c).
Qed.

Lemma extractBody_sound (p : Part.t) :
  extractBody decode p = ""
  \/ exists d, d ∈ allData p /\ extractBody decode p = decode d.
Proof.
  induction p as [m h b | m h b l IH] using Part_induction.
  - rewrite extractBody_scan. simpl Part.parts.
    destruct (Js.truthy _) eqn:Ht; [|by left].
    right. exists (default "" (bodyData (Part.Make m h b None))).
    split; [by apply own_data | done].
  - rewrite extractBody_scan. simpl Part.parts.
    destruct (Js.truthy _) eqn:Ht.
    + right. eexists. split; [by apply own_data | done].
    + destruct (scan_sound (flat_map allData l) l "") as [Hs | (d & Hd & Hs)].
      * apply Forall_forall. intros c Hc d Hd.
        apply list_elem_of_In, in_flat_map. exists c.
        by rewrite <- !list_elem_of_In.
      * done.
      * by left.
      * by left.
      * right. exists d. split; [|done]. rewrite allData_eq. simpl Part.parts.
        apply elem_of_app. by right.
Qed.

Lemma no_data_inside (p : Part.t) : allData p = [] -> extractBody decode p = "".
Proof.
  intros Hnone. destruct (extractBody_sound p) as [? | (d & Hd & _)]; [done|].
  rewrite Hnone in Hd. by apply elem_of_nil in Hd.
Qed.

(** X15. The body is never made up: it is the empty string or the
    decoded data of some part of the tree, and it is the empty string
    whenever no part of the tree carries data. *)
Theorem body_comes_from_the_tree (p : Part.t) :
  (extractBody decode p = ""
   \/ exists d, d ∈ allData p /\ extractBody decode p = decode d)
  /\ (allData p = [] -> extractBody decode p = "").
Proof. split; [apply extractBody_sound | apply no_data_inside]. Qed.

Lemma not_plain (c : Part.t) :
  ~ Spec.plainPart c -> isMime c "text/plain" && Js.truthy (bodyData c) = false.
Proof.
  intros Hnp. apply not_true_is_false. rewrite andb_true_iff, truthy_present.
  unfold isMime. by rewrite bool_decide_eq_true.
Qed.

Lemma not_html (c : Part.t) :
  ~ htmlPart c -> isMime c "text/html" && Js.truthy (bodyData c) = false.
Proof.
  intros Hnp. apply not_true_is_false. rewrite andb_true_iff, truthy_present.
  unfold isMime. by rewrite bool_decide_eq_true.
Qed.

Lemma scan_without (before after : list Part.t) (c : Part.t) (body : string) :
  attachment c ->
  scan decode (before ++ c :: after) body = scan decode (before ++ after) body.
Proof.
  intros (Hleaf & Hnp & Hnh). revert body.
  induction before as [|x before IH]; intros body; simpl.
  - rewrite (not_plain c Hnp), (not_html c Hnh). simpl. by rewrite Hleaf.
  - by rewrite !IH.
Qed.

(** X16. A leaf that is neither a plain-text nor an html part with data,
    an attachment for one, has no say in the body: with or without it
    among the children, wherever it stands, the node extracts to the same
    text. *)
Theorem attachments_are_ignored
    (m : option string) (h : option (list Header.t)) (b : option Body.t)
    (before after : list Part.t) (c : Part.t) :
  attachment c ->
  extractBody decode (Part.Make m h b (Some (before ++ c :: after)))
  = extractBody decode (Part.Make m h b (Some (before ++ after))).
Proof.
  intros Hc. rewrite !extractBody_scan. simpl Part.parts.
  change (bodyData (Part.Make m h b (Some (before ++ c :: after))))
    with (bodyData (Part.Make m h b (Some (before ++ after)))).
  cbv iota. by rewrite scan_without.
Qed.

Lemma scan_flat (ps : list Part.t) (body : string) :
  Forall (fun c => leaf c /\ ~ Spec.plainPart c) ps ->
  scan decode ps body =
    if Js.nonempty body then body
    else default "" (head (filter (fun t => Js.nonempty t = true) (htmlTexts decode ps))).
Proof.
  intros Hps. revert body.
  induction Hps as [|c ps [Hleaf Hnp] _ IH]; intros body; simpl.
  - by destruct body.
  - rewrite (not_plain c Hnp). unfold htmlTexts.
    destruct (isMime c "text/html" && Js.truthy (bodyData c)) eqn:Hh; simpl.
    + rewrite filter_cons_True by done. simpl.
      destruct (Js.nonempty body) eqn:Hb; simpl.
      * rewrite Hleaf, IH. by rewrite Hb.
      * rewrite IH. destruct (Js.nonempty (decode (default "" (bodyData c)))) eqn:Hd.
        -- by rewrite filter_cons_True by done.
        -- rewrite filter_cons_False by (by rewrite Hd). done.
    + rewrite filter_cons_False by (by rewrite Hh). by rewrite Hleaf, IH.
Qed.

(** X17. With only leaves below a node that has no inline data, and no
    plain-text part among them, the body is the html fallback: the text of
    the first html part with data whose text is not empty, the empty
    string when there is none. *)
Theorem html_fallback
    (m : option string) (h : option (list Header.t)) (b : option Body.t)
    (ps : list Part.t) :
  Spec.absent (b ≫= Body.data) ->
  Forall (fun c => leaf c /\ ~ Spec.plainPart c) ps ->
  extractBody decode (Part.Make m h b (Some ps))
  = default "" (head (filter (fun t => Js.nonempty t = true) (htmlTexts decode ps))).
Proof.
  intros Hb Hps. rewrite extractBody_scan. unfold bodyData. simpl Part.body.
  apply truthy_absent in Hb. rewrite Hb. simpl Part.parts. cbv iota.
  by rewrite (scan_flat ps "" Hps).
Qed.

Lemma scan_nested (before after : list Part.t) (c : Part.t) (body : string) :
  Forall (fun x => leaf x /\ ~ Spec.plainPart x) before ->
  Spec.absent (bodyData c) -> is_Some (Part.parts c) ->
  scan decode (before ++ c :: after) body =
    if Js.nonempty (extractBody decode c) then extractBody decode c
    else scan decode after "".
Proof.
  intros Hbefore Hc [l Hl]. apply truthy_absent in Hc. revert body.
  induction Hbefore as [|x before [Hleaf Hnp] _ IH]; intros body; simpl.
  - rewrite Hc, !andb_false_r, Hl. simpl.
    destruct (Js.nonempty (extractBody decode c)) eqn:Hne; [done|].
    by destruct (extractBody decode c).
  - rewrite (not_plain x Hnp), Hleaf.
    by destruct (isMime x "text/html" && Js.truthy (bodyData x) && negb (Js.nonempty body)).
Qed.

(** X18. The first nested part decides.  On a node without inline data,
    let the children before the first child that has children of its own
    be leaves, none of them a plain-text part.  If that child extracts to a
    non-empty text, this text is the body, even over html seen before it.
    If it extracts to nothing, whatever was seen before it is forgotten,
    html fallback included, and the body is what the children after it
    give. *)
Theorem first_nested_part_decides
    (m : option string) (h : option (list Header.t)) (b : option Body.t)
    (before after : list Part.t) (c : Part.t) :
  Spec.absent (b ≫= Body.data) ->
  Forall (fun x => leaf x /\ ~ Spec.plainPart x) before ->
  Spec.absent (bodyData c) -> is_Some (Part.parts c) ->
  (extractBody decode c <> "" ->
     extractBody decode (Part.Make m h b (Some (before ++ c :: after)))
     = extractBody decode c)
  /\ (extractBody decode c = "" ->
      extractBody decode (Part.Make m h b (Some (before ++ c :: after)))
      = extractBody decode (Part.Make m h b (Some after))).
Proof.
  intros Hb Hbefore Hc Hparts.
  assert (forall l, extractBody decode (Part.Make m h b (Some l)) = scan decode l "")
    as Hnode.
  { intros l. rewrite extractBody_scan. unfold bodyData. simpl Part.body.
    apply truthy_absent in Hb. by rewrite Hb. }
  rewrite !Hnode, (scan_nested before after c "" Hbefore Hc Hparts). split.
  - intros Hne. by destruct (extractBody decode c).
  - intros He. by rewrite He.
Qed.

End MoreBody.

(** ** Recipients *)

Section MoreHeaders.
Import Express GmailService Examples Behaviour.

Lemma split_length (sep : ascii) (s : string) :
  length (Js.split sep s) = S (occurrences sep s).
Proof.
  induction s as [|c s IH]; simpl; [done|].
  destruct (Ascii.eqb c sep); simpl; [by rewrite IH|].
  destruct (Js.split sep s); simpl in *; [done | by rewrite IH].
Qed.

Lemma split_pieces (sep : ascii) (s : string) :
  Forall (fun piece => occurrences sep piece = 0%nat) (Js.split sep s).
Proof.
  induction s as [|c s IH]; simpl; [by repeat constructor|].
  destruct (Ascii.eqb c sep) eqn:Hc; [by constructor|].
  destruct (Js.split sep s) as [|piece others].
  { constructor; [simpl; by rewrite Hc | constructor]. }
  apply Forall_cons in IH as [Hp Ho]. constructor; [|done].
  simpl. by rewrite Hc, Hp.
Qed.

Lemma trimStart_occurrences (c : ascii) (s : string) :
  (occurrences c (Js.trimStart s) <= occurrences c s)%nat.
Proof.
  induction s as [|a s IH]; simpl; [done|].
  destruct (Js.is_ws a); simpl; lia.
Qed.

Lemma trimEnd_occurrences (c : ascii) (s : string) :
  (occurrences c (Js.trimEnd s) <= occurrences c s)%nat.
Proof.
  induction s as [|a s IH]; simpl; [done|].
  destruct (Js.is_ws a && negb (Js.nonempty (Js.trimEnd s))); simpl; lia.
Qed.

Lemma trimEnd_idempotent (s : string) : Js.trimEnd (Js.trimEnd s) = Js.trimEnd s.
Proof.
  induction s as [|a s IH]; simpl; [done|].
  destruct (Js.is_ws a && negb (Js.nonempty (Js.trimEnd s))) eqn:E; simpl; [done|].
  by rewrite IH, E.
Qed.

Lemma trimStart_trimEnd (s : string) :
  Js.trimStart (Js.trimEnd (Js.trimStart s)) = Js.trimEnd (Js.trimStart s).
Proof.
  induction s as [|a s IH]; simpl; [done|].
  destruct (Js.is_ws a) eqn:Ha; [done|]. simpl. rewrite Ha. simpl. by rewrite Ha.
Qed.

Lemma trim_idempotent (s : string) : Js.trim (Js.trim s) = Js.trim s.
Proof. unfold Js.trim. by rewrite trimStart_trimEnd, trimEnd_idempotent. Qed.

(** X19. The recipients of a message are never the empty list: there
    is one entry more than there are commas in the value of the To header
    (none when the header is missing), no entry contains a comma, and no
    entry begins or ends with white space. *)
Theorem recipients_shape
    (parseDate : string -> JsDate.Date) (now : Z) (headers : list Header.t) :
  let recipients := to (parseHeaders parseDate now headers) in
  recipients <> []
  /\ length recipients = S (occurrences "," (getHeader headers "To"))
  /\ Forall (fun r => occurrences "," r = 0%nat /\ Js.trim r = r) recipients.
Proof.
  cbv zeta. unfold parseHeaders. cbn [to].
  assert (length (map Js.trim (Js.split "," (getHeader headers "To")))
          = S (occurrences "," (getHeader headers "To"))) as Hlen.
  { by rewrite length_map, split_length. }
  split; [|split; [done|]].
  - intros Hnil. by rewrite Hnil in Hlen.
  - apply Forall_map. eapply Forall_impl; [apply (split_pieces ",")|].
    intros piece Hp. cbv beta in *. split; [|apply trim_idempotent].
    unfold Js.trim.
    pose proof (trimEnd_occurrences "," (Js.trimStart piece)).
    pose proof (trimStart_occurrences "," piece). lia.
Qed.

End MoreHeaders.

(** ** Units of the time window *)

Section MoreQuery.
Import Express GmailService Examples Behaviour.

(** X20. The units are multiples of one another: counting 24 k hours, 7 k
    days or 30 k days gives the same query as counting k days, k weeks or k
    months, for every filter, clock reading and time zone. *)
Theorem window_units_agree
    (localTZA : Z -> Z) (now : Z) (f : EmailFilters.t) (k : Z) :
  buildQuery localTZA now (withWindow f hours (24 * k))
  = buildQuery localTZA now (withWindow f days k)
  /\ buildQuery localTZA now (withWindow f days (7 * k))
     = buildQuery localTZA now (withWindow f weeks k)
  /\ buildQuery localTZA now (withWindow f days (30 * k))
     = buildQuery localTZA now (withWindow f months k).
Proof.
  unfold buildQuery, withWindow. cbn [EmailFilters.isRead EmailFilters.timeRange
    EmailFilters.timeValue EmailFilters.maxResults truthyNum].
  destruct (Z.eqb_spec k 0) as [->|Hk].
  - by repeat split.
  - rewrite (proj2 (Z.eqb_neq (24 * k) 0)), (proj2 (Z.eqb_neq (7 * k) 0)),
      (proj2 (Z.eqb_neq (30 * k) 0)) by lia.
    cbn [negb].
    replace (now - 24 * k * 60 * 60 * 1000) with (now - k * 24 * 60 * 60 * 1000) by lia.
    replace (now - 7 * k * 24 * 60 * 60 * 1000)
      with (now - k * 7 * 24 * 60 * 60 * 1000) by lia.
    replace (now - 30 * k * 24 * 60 * 60 * 1000)
      with (now - k * 30 * 24 * 60 * 60 * 1000) by lia.
    by repeat split.
Qed.

End MoreQuery.

(** ** The current-user route *)

Section MoreAuth.
Import Express UserModel Middleware AuthController Behaviour.


End MoreAuth.

(** ** The Google sign-in *)

Section MorePassport.
Import Express UserModel Passport.

Lemma split_head (sep : ascii) (s : string) :
  head (Js.split sep s) = Some "" -> s = "" \/ exists rest, s = String sep rest.
Proof.
  destruct s as [|c s]; [by left|]. simpl.
  destruct (Ascii.eqb_spec c sep) as [->|Hne]; [by right; eexists|].
  by destruct (Js.split sep s).
Qed.

Lemma split_head_some (sep : ascii) (s : string) : is_Some (head (Js.split sep s)).
Proof.
  destruct s as [|c s]; simpl; [by eexists|].
  destruct (Ascii.eqb c sep); [by eexists|].
  destruct (Js.split sep s); by eexists.
Qed.

(** X22. Without a usable address in the profile (no list of addresses,
    an empty list, or a first entry without a value) the sign-in fails with
    "No email found in Google profile" and the user store is not touched;
    with one, the first thing done is to look that address up. *)
Theorem sign_in_needs_email
    (store : UserStore) (accessToken refreshToken : string) (profile : Profile.t) :
  let v := verify store accessToken refreshToken profile in
  (Spec.absent (firstEmail profile) ->
     calls v = [] /\ done v = Failed "No email found in Google profile")
  /\ (Spec.present (firstEmail profile) ->
      head (calls v) = (FindOne <$> firstEmail profile)).
Proof.
  cbv zeta. unfold verify; cbv zeta. split.
  - intros Habs. apply truthy_absent in Habs. by rewrite Habs.
  - intros Hpre. pose proof Hpre as (e & He & Hne).
    apply truthy_present in Hpre. rewrite Hpre, He. cbn [negb default from_option id fmap option_fmap option_map].
    destruct (findOne store e) as [m|[u|]]; [done| |];
      by match goal with |- context [save store ?d] => destruct (save store d) end.
Qed.

(** X23. When the address belongs to a stored user, exactly that user
    is saved again, with the identifier, address, name, time zone and roles
    it had: only the access token is replaced, and the refresh token only
    when Google sent a non-empty one.  Nothing else of the profile is
    used: two profiles with the same first address give the same
    outcome. *)
Theorem returning_user_keeps_identity
    (store : UserStore) (accessToken refreshToken : string)
    (profile : Profile.t) (e : string) (u : IUser) :
  firstEmail profile = Some e -> e <> "" -> findOne store e = inr (Some u) ->
  let v := verify store accessToken refreshToken profile in
  (exists u',
      calls v = [FindOne e; Save u']
      /\ Spec.sameButTokens u u'
      /\ googleAccessToken u' = Some accessToken
      /\ (refreshToken <> "" -> googleRefreshToken u' = Some refreshToken)
      /\ (refreshToken = "" -> googleRefreshToken u' = googleRefreshToken u)
      /\ (forall saved, save store u' = inr saved -> done v = LoggedIn saved)
      /\ (forall m, save store u' = inl m -> done v = Failed m))
  /\ (forall profile', firstEmail profile' = Some e ->
      verify store accessToken refreshToken profile' = v).
Proof.
  intros He Hne Hfound. cbv zeta.
  assert (Js.truthy (Some e) = true) as Ht.
  { apply truthy_present. by exists e. }
  split.
  - unfold verify; cbv zeta. rewrite He, Ht. cbn [negb default from_option id]. rewrite Hfound.
    eexists. split.
    { by match goal with |- context [save store ?d] => destruct (save store d) end. }
    split; [by repeat split|]. cbn [googleAccessToken googleRefreshToken].
    split; [done|]. split.
    { intros Hr. destruct refreshToken; [done|]. done. }
    split; [by intros ->|].
    split; intros ? Hs; by rewrite Hs.
  - intros profile' He'. unfold verify; cbv zeta. rewrite He, He', Ht. cbn [negb default from_option id].
    by rewrite Hfound.
Qed.

(** X24. When the address is unknown, a user document is built from
    the address, the tokens, the time zone America/New_York and a name, and
    saved.  The name is the display name if there is one, else the given
    and family name joined by a space and trimmed, else the part of the
    address before the first at sign; it is empty only if the address
    begins with an at sign. *)
Theorem first_sign_in_creates_user
    (store : UserStore) (accessToken refreshToken : string)
    (profile : Profile.t) (e : string) :
  firstEmail profile = Some e -> e <> "" -> findOne store e = inr None ->
  let v := verify store accessToken refreshToken profile in
  let full := Js.trim (Js.or_empty (Profile.name profile ≫= Name.givenName) +:+ " "
                       +:+ Js.or_empty (Profile.name profile ≫= Name.familyName)) in
  exists n,
    calls v = [FindOne e;
               Save (construct store
                       {| NewUser.email := e; NewUser.name := n;
                          NewUser.timeZone := "America/New_York";
                          NewUser.googleAccessToken := accessToken;
                          NewUser.googleRefreshToken := refreshToken |})]
    /\ (Spec.present (Profile.displayName profile) -> Profile.displayName profile = Some n)
    /\ (Spec.absent (Profile.displayName profile) -> full <> "" -> n = full)
    /\ (Spec.absent (Profile.displayName profile) -> full = "" ->
        head (Js.split "@" e) = Some n)
    /\ (n = "" -> Js.startsWith "@" e = true).
Proof.
  intros He Hne Hnew. cbv zeta.
  assert (Js.truthy (Some e) = true) as Ht.
  { apply truthy_present. by exists e. }
  exists (chooseName profile e). split.
  { unfold verify; cbv zeta. rewrite He, Ht. cbn [negb default from_option id]. rewrite Hnew.
    by match goal with |- context [save store ?d] => destruct (save store d) end. }
  unfold chooseName; cbv zeta.
  destruct (split_head_some "@" e) as [local Hlocal].
  pose proof (split_head "@" e) as Hempty. rewrite Hlocal in *. cbn [default from_option id].
  assert (local = "" -> Js.startsWith "@" e = true) as Hat.
  { intros ->. destruct Hempty as [?|[rest ->]]; [done|done|].
    apply startsWith_spec. by exists rest. }
  destruct (Profile.displayName profile) as [d|]; cbn [Js.or_empty].
  - destruct d as [|c d]; cbn [Js.nonempty negb].
    + split; [by intros (? & ? & ?); simplify_eq|].
      destruct (Js.trim _) as [|c' full] eqn:Hfull; cbn [Js.nonempty negb].
      * repeat split; try done. 
      * repeat split; try done.
    + split; [done|]. repeat split; try done; by intros [|].
  - cbn [Js.nonempty negb].
    split; [by intros (? & ? & ?)|].
    destruct (Js.trim _) as [|c' full] eqn:Hfull; cbn [Js.nonempty negb];
      repeat split; done.
Qed.

(** X25. A sign-in ends in a logged-in user only when a save of the
    user store succeeded, and then with the document as saved; it fails
    with the message of the store call that was rejected, or with the
    missing-address message before any call is made. *)
Theorem sign_in_outcomes
    (store : UserStore) (accessToken refreshToken : string) (profile : Profile.t) :
  let v := verify store accessToken refreshToken profile in
  match done v with
  | LoggedIn saved =>
      exists e doc, firstEmail profile = Some e
        /\ calls v = [FindOne e; Save doc] /\ save store doc = inr saved
  | Failed m =>
      (calls v = [] /\ m = "No email found in Google profile")
      \/ (exists e, calls v = [FindOne e] /\ findOne store e = inl m)
      \/ (exists e doc, calls v = [FindOne e; Save doc] /\ save store doc = inl m)
  end.
Proof.
  cbv zeta. unfold verify; cbv zeta.
  destruct (firstEmail profile) as [e|]; [|by left].
  destruct (Js.truthy (Some e)); cbn [negb default from_option id]; [|by left].
  destruct (findOne store e) as [m|[u|]] eqn:Hf.
  - right; left. by exists e.
  - match goal with |- context [save store ?d] => destruct (save store d) eqn:Hs end;
      cbn [done calls]; [right; right|]; eauto.
  - match goal with |- context [save store ?d] => destruct (save store d) eqn:Hs end;
      cbn [done calls]; [right; right|]; eauto.
Qed.

End MorePassport.

(** ** The two authentication gates *)

Section MoreGates2.
Import Express UserModel Middleware.

(** X26. The older gate [isAuthenticated] and [requireUser] refuse
    with the same status and body, and [requireUser] is the stricter one:
    whatever it lets through the older gate lets through too, and the two
    decide alike on every request that carries an identity. *)
Theorem gates_compared (req : Request) :
  ((requireUser req).2 = Next -> (AuthController.isAuthenticated req).2 = Next)
  /\ (is_Some (user req) ->
      (requireUser req).2 = (AuthController.isAuthenticated req).2)
  /\ (forall status body,
        (requireUser req).2 = Send status body
        \/ (AuthController.isAuthenticated req).2 = Send status body ->
        status = 401
        /\ body = VObj [("success", VBool false);
                        ("message", VStr "Authentication required")]).
Proof.
  unfold requireUser, AuthController.isAuthenticated, deny.
  destruct (Middleware.isAuthenticated req), (user req) as [u|]; cbn [negb snd];
    (split; [done|]); (split; [by intros [? ?]|]);
    intros status body [H|H]; by simplify_eq.
Qed.

End MoreGates2.

(** ** Instances *)

Section MoreWitnesses.
Import Express UserModel Middleware GmailService EmailController Passport.
Import Examples Samples.

Lemma role_gate_witness :
  (requireRole [ADMIN] (request "GET" "/admin" [] [] (Some root))).2 = Next
  /\ (requireRole [ADMIN] (request "GET" "/admin" [] [] (Some alice))).2
     = Send 403 (VObj [("success", VBool false);
                       ("message", VStr "Insufficient permissions")]).
Proof.
  split.
  - destruct (role_gate [ADMIN] (request "GET" "/admin" [] [] (Some root)))
      as (Hidentity & _ & _).
    destruct (Hidentity root eq_refl) as [Hpass _].
    apply Hpass. exists ADMIN. split; simpl; set_solver.
  - destruct (role_gate [ADMIN] (request "GET" "/admin" [] [] (Some alice)))
      as (Hidentity & _ & _).
    destruct (Hidentity alice eq_refl) as [_ Hdeny].
    apply Hdeny. intros (r & Hhave & Hneed). simpl in Hhave. set_solver.
Defined.

Lemma role_gate_is_strongest_witness :
  let req := request "GET" "/api/users/42" [("userId", "42")] [] (Some root) in
  (requireRole [USER; ADMIN] req).2 = Next
  /\ (requireOwnershipOrRole "userId" [ADMIN] req).2 = Next.
Proof.
  cbv zeta.
  destruct (role_gate_is_strongest [ADMIN] [USER; ADMIN] "userId"
              (request "GET" "/api/users/42" [("userId", "42")] [] (Some root)) eq_refl)
    as [Hlarger Hown].
  split.
  - apply Hlarger. set_solver.
  - apply Hown. exists "42". split; [reflexivity | discriminate].
Defined.

Lemma connected_google_gate_witness :
  (requireConnectedGoogle (request "GET" "/api/emails" [] [] (Some alice))).2 = Next
  /\ (requireConnectedGoogle (request "GET" "/api/emails" [] [] (Some root))).2
     = Send 403
         (VObj [("success", VBool false);
                ("message", VStr "Google account connection required. Please connect your Google account to access Gmail features.");
                ("code", VStr "GOOGLE_NOT_CONNECTED")]).
Proof.
  split.
  - destruct (connected_google_gate (request "GET" "/api/emails" [] [] (Some alice))
                alice eq_refl) as [Hpass _].
    apply Hpass. exists "ya29.access". split; [reflexivity | discriminate].
  - destruct (connected_google_gate (request "GET" "/api/emails" [] [] (Some root))
                root eq_refl) as [_ Hdeny].
    apply Hdeny. left. reflexivity.
Defined.

Lemma email_routes_guard_witness :
  "emailController.getEmails"
    ∈ invoked (dispatch (emailsRoute openLimiter runtime (rejecting "API Error"))
                        (request "GET" "/" [] [] (Some alice)))
  /\ dispatch (emailsRoute openLimiter runtime (rejecting "API Error"))
              (request "GET" "/" [] [] (Some root))
     = dispatch (emailsRoute openLimiter runtime (mailbox None))
                (request "GET" "/" [] [] (Some root)).
Proof.
  split.
  - pose proof (email_routes_guard openLimiter runtime (rejecting "API Error")
                  (request "GET" "/" [] [] (Some alice))) as (Hlist & _ & _).
    cbv zeta in Hlist. apply Hlist. split; [reflexivity|].
    exists alice. split; [reflexivity|]. split; [reflexivity|].
    exists "ya29.access". split; [reflexivity | discriminate].
  - pose proof (email_routes_guard openLimiter runtime (rejecting "API Error")
                  (request "GET" "/" [] [] (Some root))) as (_ & _ & Hother).
    cbv zeta in Hother. apply Hother.
    intros (_ & u & Hu & _ & (s & Hs & Hne)).
    injection Hu as <-. discriminate Hs.
Defined.

Lemma email_routes_401_witness :
  let run := dispatch (emailsRoute openLimiter runtime (rejecting "invalid_grant"))
                      (request "GET" "/" [] [] (Some alice)) in
  let expired :=
    VObj [("error", VStr "Google authentication expired. Please re-authenticate.");
          ("code", VStr "AUTH_EXPIRED")] in
  response run = Some (401, expired)
  /\ ((expired = VObj [("success", VBool false); ("message", VStr "Authentication required")]
       /\ invoked run = ["apiRateLimiter"; "requireUser"])
      \/ expired = expired).
Proof.
  cbv zeta. split; [reflexivity|].
  apply (proj1 (email_routes_401 openLimiter runtime (rejecting "invalid_grant")
                  (request "GET" "/" [] [] (Some alice)) _ eq_refl)).
  reflexivity.
Defined.

Lemma accepted_filters_are_records_witness :
  exists f, readFilters (list_to_map [("timeRange", "days"); ("timeValue", "7")]) = inr f
            /\ Spec.FilterRecord f.
Proof.
  destruct accepted_filters_are_records as [Hrecord _].
  destruct (readFilters (list_to_map [("timeRange", "days"); ("timeValue", "7")]))
    as [body|f] eqn:Hf.
  - vm_compute in Hf. discriminate Hf.
  - exists f. split; [reflexivity | exact (Hrecord _ _ Hf)].
Defined.

Lemma result_cap_witness :
  exists f, readFilters {[ "maxResults" := "25" ]} = inr f
            /\ EmailFilters.maxResults f = Some 25.
Proof.
  destruct (result_cap {[ "maxResults" := "25" ]}
              ltac:(left; reflexivity) ltac:(left; reflexivity)) as (_ & Hvalid & _).
  apply (Hvalid "25" 25 eq_refl eq_refl). lia.
Defined.


Lemma validation_order_witness :
  readFilters {[ "timeRange" := "years" ]}
  = inl (VObj [("error",
                VStr "Invalid timeRange. Must be one of: hours, days, weeks, months")]).
Proof.
  destruct (validation_order {[ "timeRange" := "years" ]}) as (_ & Hrange & _).
  apply (Hrange "years" eq_refl); [discriminate | reflexivity].
Defined.

Lemma service_errors_are_wrapped_witness :
  exists e,
    "Failed to fetch email: Not Found" = "Failed to fetch email: " +:+ e
    /\ (messages_get (rejecting "Not Found") (createOAuth2Client alice) "999" = inl e
        \/ exists msg,
             messages_get (rejecting "Not Found") (createOAuth2Client alice) "999" = inr msg
             /\ Message.payload msg = None
             /\ e = "Cannot read properties of undefined (reading 'body')").
Proof.
  exact (proj2 (service_errors_are_wrapped runtime (rejecting "Not Found") alice)
           "999" "Failed to fetch email: Not Found" eq_refl).
Defined.

Lemma empty_mailbox_witness :
  (GmailService.getEmails runtime (mailbox None) alice EmailFilters.empty).2 = inr [].
Proof.
  apply (empty_mailbox runtime (mailbox None) alice EmailFilters.empty None
           (fun _ _ _ => eq_refl) eq_refl).
Defined.

Lemma listing_order_preserved_witness :
  exists emails,
    (GmailService.getEmails runtime (mailbox (Some ["m2"; "m1"])) alice
       EmailFilters.empty).2 = inr emails
    /\ map EmailMessage.id emails = ["m2"; "m1"].
Proof.
  destruct (listing_order_preserved runtime (mailbox (Some ["m2"; "m1"])) alice
              EmailFilters.empty ["m2"; "m1"] [readMessage; unreadMessage]
              (fun _ _ _ => eq_refl))
    as (emails & Hemails & _ & Hids & _).
  - constructor; [split; [intros; reflexivity | eexists; reflexivity]|].
    constructor; [split; [intros; reflexivity | eexists; reflexivity]|].
    constructor.
  - exists emails. split; [exact Hemails | exact Hids].
Defined.


Lemma read_flag_agrees_with_labels_witness :
  exists e,
    (GmailService.getEmailById runtime (mailbox None) alice "m1").2 = inr e
    /\ (EmailMessage.isRead e = true <-> "UNREAD" ∉ EmailMessage.labels e)
    /\ EmailMessage.isRead e = false.
Proof.
  eexists. split; [reflexivity|]. split; [|reflexivity].
  apply (proj2 (read_flag_agrees_with_labels runtime (mailbox None) alice) "m1").
  reflexivity.
Defined.

Lemma body_comes_from_the_tree_witness :
  extractBody Base64.decode (multipart [pdfLeaf]) = "".
Proof.
  apply (proj2 (body_comes_from_the_tree Base64.decode (multipart [pdfLeaf]))).
  reflexivity.
Defined.

Lemma attachments_are_ignored_witness :
  extractBody Base64.decode (multipart ([htmlLeaf] ++ pdfLeaf :: [plainLeaf]))
  = extractBody Base64.decode (multipart ([htmlLeaf] ++ [plainLeaf])).
Proof.
  apply (attachments_are_ignored Base64.decode (Some "multipart/alternative") None None
           [htmlLeaf] [plainLeaf] pdfLeaf).
  split; [reflexivity|]. split; intros [Hmime _]; discriminate Hmime.
Defined.

Lemma html_fallback_witness :
  extractBody Base64.decode (multipart [pdfLeaf; htmlLeaf]) = "<p>HTML body</p>".
Proof.
  change (multipart [pdfLeaf; htmlLeaf])
    with (Part.Make (Some "multipart/alternative") None None (Some [pdfLeaf; htmlLeaf])).
  rewrite (html_fallback Base64.decode (Some "multipart/alternative") None None
             [pdfLeaf; htmlLeaf]).
  - vm_compute. reflexivity.
  - left. reflexivity.
  - constructor; [split; [reflexivity | intros [Hmime _]; discriminate Hmime]|].
    constructor; [split; [reflexivity | intros [Hmime _]; discriminate Hmime]|].
    constructor.
Defined.

Lemma first_nested_part_decides_witness :
  extractBody Base64.decode (multipart ([pdfLeaf] ++ multipart [htmlLeaf] :: [plainLeaf]))
  = extractBody Base64.decode (multipart [htmlLeaf]).
Proof.
  assert (extractBody Base64.decode (multipart [htmlLeaf]) <> "") as Hbody.
  { vm_compute. discriminate. }
  destruct (first_nested_part_decides Base64.decode (Some "multipart/alternative")
              None None [pdfLeaf] [plainLeaf] (multipart [htmlLeaf])) as [Hfirst _].
  - left. reflexivity.
  - constructor; [split; [reflexivity | intros [Hmime _]; discriminate Hmime]|].
    constructor.
  - left. reflexivity.
  - eexists. reflexivity.
  - exact (Hfirst Hbody).
Defined.

Lemma recipients_shape_witness :
  length (to (parseHeaders knownDates noon [subjectHeader; toHeader])) = 2%nat.
Proof.
  destruct (recipients_shape knownDates noon [subjectHeader; toHeader])
    as (_ & Hlength & _).
  exact Hlength.
Defined.

Lemma window_units_agree_witness :
  buildQuery utc noon (Behaviour.withWindow lastWeekUnread hours 48)
  = buildQuery utc noon (Behaviour.withWindow lastWeekUnread days 2).
Proof.
  exact (proj1 (window_units_agree utc noon lastWeekUnread 2)).
Defined.


Lemma sign_in_needs_email_witness :
  calls (verify store "ya29.new" "1//new" noAddressProfile) = []
  /\ done (verify store "ya29.new" "1//new" noAddressProfile)
     = Failed "No email found in Google profile".
Proof.
  apply (proj1 (sign_in_needs_email store "ya29.new" "1//new" noAddressProfile)).
  left. reflexivity.
Defined.

Lemma returning_user_keeps_identity_witness :
  exists u',
    calls (verify store "ya29.new" "" googleProfile)
    = [FindOne "alice@example.com"; Save u']
    /\ name u' = "Alice"
    /\ googleAccessToken u' = Some "ya29.new"
    /\ googleRefreshToken u' = Some "1//refresh".
Proof.
  destruct (returning_user_keeps_identity store "ya29.new" "" googleProfile
              "alice@example.com" alice eq_refl ltac:(discriminate) eq_refl)
    as [(u' & Hcalls & Hsame & Haccess & _ & Hrefresh & _) _].
  destruct Hsame as (_ & _ & Hname & _).
  exists u'. split; [exact Hcalls|]. split; [symmetry; exact Hname|].
  split; [exact Haccess|]. rewrite (Hrefresh eq_refl). reflexivity.
Defined.

Lemma first_sign_in_creates_user_witness :
  exists n,
    calls (verify store "ya29.new" "1//new" bareProfile)
    = [FindOne "bob@example.com";
       Save (construct store
               {| NewUser.email := "bob@example.com"; NewUser.name := n;
                  NewUser.timeZone := "America/New_York";
                  NewUser.googleAccessToken := "ya29.new";
                  NewUser.googleRefreshToken := "1//new" |})]
    /\ n = "Bob".
Proof.
  destruct (first_sign_in_creates_user store "ya29.new" "1//new" bareProfile
              "bob@example.com" eq_refl ltac:(discriminate) eq_refl)
    as (n & Hcalls & _ & Hfull & _).
  exists n. split; [exact Hcalls|].
  rewrite Hfull; [reflexivity | left; reflexivity | vm_compute; discriminate].
Defined.

Lemma sign_in_outcomes_witness :
  let v := verify (failingStore "connection lost") "ya29.new" "1//new" googleProfile in
  (calls v = [] /\ "connection lost" = "No email found in Google profile")
  \/ (exists e, calls v = [FindOne e]
                /\ findOne (failingStore "connection lost") e = inl "connection lost")
  \/ (exists e doc, calls v = [FindOne e; Save doc]
                    /\ save (failingStore "connection lost") doc = inl "connection lost").
Proof.
  exact (sign_in_outcomes (failingStore "connection lost") "ya29.new" "1//new"
           googleProfile).
Defined.

Lemma gates_compared_witness :
  (AuthController.isAuthenticated (request "GET" "/auth/user" [] [] (Some alice))).2
  = Next.
Proof.
  apply (proj1 (gates_compared (request "GET" "/auth/user" [] [] (Some alice)))).
  reflexivity.
Defined.

End MoreWitnesses.
